(** * PharmVector: the embedding-indexing and similarity-search pipeline

    A shallow embedding of [app/utils/embeddings.py], [app/tasks/embeddings.py],
    [app/routers/documents.py] and [app/schemas.py].

    - The relational table [documents] is a list of rows in heap order; the
      SQL statements of the source are functions on that list.
    - Handlers are written in a state-and-exception monad over a [World]
      (committed table, open transaction, Celery broker and result backend,
      the per-process [lru_cache] of the model, and the trace of I/O).
    - What the repository only calls (the sentence-transformers model, the
      pgvector operator and input function, Python's [str] on floats) is an
      interface, the class [Externals].
    - Distances and similarities are exact rationals ([Qc]); rounding of
      IEEE doubles is outside the model. *)

From Stdlib Require Import QArith Qcanon Ascii String DecimalString.
From stdpp Require Import base numbers list strings sorting.

Set Default Proof Using "Type".
Local Open Scope Z_scope.

(** ** Exceptions *)

Inductive Exception :=
| ModelError (msg : string)
| DatabaseError (msg : string)
| TypeError (msg : string)
| HTTPException (status_code : Z) (detail : string)
| RequestValidationError (loc : list string) (msg : string).

Inductive Result (A : Type) :=
| Ok (a : A)
| Raise (e : Exception).
Arguments Ok {A} a.
Arguments Raise {A} e.

(** ** What the repository imports but does not define *)

Class Externals := {
  (** a Python float, also a component of a pgvector [vector] *)
  pyfloat : Type;
  (** [str] on a float *)
  float_str : pyfloat → string;
  (** a loaded [SentenceTransformer] *)
  SentenceTransformer : Type;
  (** [model.encode(text)], already as a list *)
  encode : SentenceTransformer → string → Result (list pyfloat);
  (** pgvector's [<=>] *)
  cosine_distance : list pyfloat → list pyfloat → Qc;
  (** pgvector's text input, [CAST(:s AS vector)] *)
  vector_in : string → Result (list pyfloat);
}.

(** ** Records *)

Module User.
Record t := mk { id : Z }.
End User.

Module Document.
Section Row.
Context `{Externals}.
(** Modelled from the spec: [app/models.py] is not part of the sources.
    A document has an identity (id, owner id), a title, a content, an
    optional embedding that is absent until indexed, and a creation time. *)
Record t := mk {
  id : Z;
  title : string;
  content : string;
  user_id : Z;
  embedding : option (list pyfloat);
  created_at : Z;
}.

Definition set_embedding (v : option (list pyfloat)) (d : t) : t :=
  mk (id d) (title d) (content d) (user_id d) v (created_at d).
End Row.
End Document.

Abbreviation Document := Document.t.
Abbreviation vector := (list pyfloat).

Module DocumentCreate.
Record t := mk { title : string; content : string }.
End DocumentCreate.

Module DocumentResponse.
Record t := mk {
  id : Z; title : string; content : string; user_id : Z; created_at : Z }.
End DocumentResponse.

Module DocumentSearchRequest.
Record t := mk { query : string }.
End DocumentSearchRequest.

Module DocumentSearchResult.
Record t := mk {
  id : Z; title : string; content : string; similarity : Qc; created_at : Z }.
End DocumentSearchResult.

(** A row of the similarity query: the five selected columns.  The column
    [similarity] is nullable, as [embedding <=> _] is NULL on a NULL embedding. *)
Module SimilarityRow.
Record t := mk {
  id : Z; title : string; content : string; created_at : Z;
  similarity : option Qc }.
End SimilarityRow.

Module TaskResult.
Record t := mk { status : string; document_id : Z }.
End TaskResult.

Inductive PyValue :=
| PyInt (n : Z)
| PyStr (s : string).

(** A request body as parsed JSON. *)
#[local] Unset Elimination Schemes.
Inductive JSON :=
| JNull
| JBool (b : bool)
| JNumber (n : Z)
| JString (s : string)
| JArray (items : list JSON)
| JObject (fields : list (string * JSON)).
#[local] Set Elimination Schemes.

(** Which process runs: each has its own [lru_cache]. *)
Inductive Process := Web | Worker.

(** ORDER BY ... ASC on a nullable numeric key: NULLs sort last. *)
Definition asc_nulls_last (a b : option Qc) : Prop :=
  match a, b with
  | Some x, Some y => (x ≤ y)%Qc
  | _, None => True
  | None, Some _ => False
  end.

Global Instance asc_nulls_last_dec : RelDecision asc_nulls_last.
Proof.
  intros [x|] [y|]; simpl; try apply _.
Defined.

Section Model.
Context `{Externals}.

(** ** SQL *)

(** [embedding <=> CAST(:query_embedding AS vector)] *)
Definition distance_expr (q : vector) (d : Document) : option Qc :=
  match Document.embedding d with
  | Some e => Some (cosine_distance e q)
  | None => None
  end.

(** [1 - (embedding <=> CAST(:query_embedding AS vector))] *)
Definition similarity_expr (q : vector) (d : Document) : option Qc :=
  match distance_expr q d with
  | Some dist => Some (1 - dist)%Qc
  | None => None
  end.

(** [WHERE user_id = :user_id AND embedding IS NOT NULL] *)
Definition where_clause (uid : Z) (d : Document) : Prop :=
  Document.user_id d = uid ∧ is_Some (Document.embedding d).

Global Instance where_clause_dec uid d : Decision (where_clause uid d).
Proof. unfold where_clause. apply _. Defined.

(** [ORDER BY embedding <=> CAST(:query_embedding AS vector)] *)
Definition order_by (q : vector) (a b : Document) : Prop :=
  asc_nulls_last (distance_expr q a) (distance_expr q b).

Global Instance order_by_dec q : RelDecision (order_by q).
Proof. intros a b. unfold order_by. apply _. Defined.

Definition LIMIT : nat := 3.

(** The rows the statement keeps, before the projection: filter, sort by
    the key, cut at the limit.  The database leaves the order of rows with
    equal keys open; the model sorts the heap order with a merge sort, and
    nothing below depends on how ties fall. *)
Definition select_similar_documents
    (table : list Document) (q : vector) (uid : Z) : list Document :=
  take LIMIT (merge_sort (order_by q) (filter (where_clause uid) table)).

Definition project (q : vector) (d : Document) : SimilarityRow.t :=
  SimilarityRow.mk (Document.id d) (Document.title d) (Document.content d)
    (Document.created_at d) (similarity_expr q d).

(** The whole SELECT of [search_documents]. *)
Definition select_similar
    (table : list Document) (q : vector) (uid : Z) : list SimilarityRow.t :=
  project q <$> select_similar_documents table q uid.

(** [UPDATE documents SET embedding = :e WHERE id = :document_id] *)
Definition update_embedding
    (document_id : Z) (e : vector) (table : list Document) : list Document :=
  (λ d, if decide (Document.id d = document_id)
        then Document.set_embedding (Some e) d else d) <$> table.

(** [DELETE FROM documents WHERE id = :document_id] *)
Definition delete_where_id
    (document_id : Z) (table : list Document) : list Document :=
  filter (λ d, Document.id d ≠ document_id) table.

(** [SELECT ... FROM documents WHERE id = :document_id AND user_id = :user_id] *)
Definition select_document
    (document_id uid : Z) (table : list Document) : list Document :=
  filter (λ d, Document.id d = document_id ∧ Document.user_id d = uid) table.

(** [SELECT ... FROM documents WHERE id = :pk], issued by [refresh] *)
Definition select_by_pk (pk : Z) (table : list Document) : list Document :=
  filter (λ d, Document.id d = pk) table.

Inductive Statement :=
| InsertDocument (title content : string) (user_id : Z)
| SelectSimilar (query_embedding : string) (user_id : Z)
| SelectDocument (document_id user_id : Z)
| RefreshDocument (document_id : Z)
| UpdateEmbedding (document_id : Z) (embedding : vector)
| DeleteDocument (document_id : Z).

(** What a handler does to the outside, in order. *)
Inductive Effect :=
| LoadModel (name : string)
| Execute (stmt : Statement)
| Commit
| Rollback
| Close
| Delay (document_id : Z) (content : string)
| LogUserAction (user_id : Z) (action : string)
    (details : list (string * PyValue)).

(** ** The world and the environment of one run *)

Record World := mkWorld {
  (** committed rows of the table [documents], in heap order *)
  documents : list Document;
  (** last value handed out by the id sequence *)
  documents_id_seq : Z;
  (** rows as the open session sees them, once it has begun a transaction *)
  transaction : option (list Document);
  (** messages in the broker: the arguments of [generate_document_embedding] *)
  celery_queue : list (Z * string);
  (** the result backend *)
  celery_results : list (Result TaskResult.t);
  (** the [lru_cache] of [get_embedding_model], one per process *)
  web_model : option SentenceTransformer;
  worker_model : option SentenceTransformer;
  effects : list Effect;
}.

(** What the surroundings decide during one run of a handler. *)
Record Env := mkEnv {
  process : Process;
  (** the outcome of [SentenceTransformer('all-MiniLM-L6-v2')], if called *)
  load_model : Result SentenceTransformer;
  (** the database may refuse a statement or a commit *)
  execute_fault : Statement → option Exception;
  commit_fault : option Exception;
  (** the broker may refuse a task: [.delay] raises and nothing is queued *)
  delay_fault : option Exception;
  now : Z;
}.

Definition set_documents (x : list Document) (w : World) : World :=
  mkWorld x (documents_id_seq w) (transaction w) (celery_queue w)
    (celery_results w) (web_model w) (worker_model w) (effects w).
Definition set_documents_id_seq (x : Z) (w : World) : World :=
  mkWorld (documents w) x (transaction w) (celery_queue w)
    (celery_results w) (web_model w) (worker_model w) (effects w).
Definition set_transaction (x : option (list Document)) (w : World) : World :=
  mkWorld (documents w) (documents_id_seq w) x (celery_queue w)
    (celery_results w) (web_model w) (worker_model w) (effects w).
Definition set_celery_queue (x : list (Z * string)) (w : World) : World :=
  mkWorld (documents w) (documents_id_seq w) (transaction w) x
    (celery_results w) (web_model w) (worker_model w) (effects w).
Definition set_celery_results (x : list (Result TaskResult.t)) (w : World)
    : World :=
  mkWorld (documents w) (documents_id_seq w) (transaction w) (celery_queue w)
    x (web_model w) (worker_model w) (effects w).
Definition set_effects (x : list Effect) (w : World) : World :=
  mkWorld (documents w) (documents_id_seq w) (transaction w) (celery_queue w)
    (celery_results w) (web_model w) (worker_model w) x.

Definition model_cache (p : Process) (w : World) : option SentenceTransformer :=
  match p with Web => web_model w | Worker => worker_model w end.
Definition set_model_cache (p : Process) (x : option SentenceTransformer)
    (w : World) : World :=
  match p with
  | Web =>
      mkWorld (documents w) (documents_id_seq w) (transaction w)
        (celery_queue w) (celery_results w) x (worker_model w) (effects w)
  | Worker =>
      mkWorld (documents w) (documents_id_seq w) (transaction w)
        (celery_queue w) (celery_results w) (web_model w) x (effects w)
  end.

Definition in_process (p : Process) (env : Env) : Env :=
  mkEnv p (load_model env) (execute_fault env) (commit_fault env)
    (delay_fault env) (now env).

(** ** The monad of handlers: state, and exceptions that keep the state *)

Definition Handler (A : Type) : Type := Env → World → Result A * World.

Definition ret {A} (a : A) : Handler A := λ _ w, (Ok a, w).
Definition raise {A} (e : Exception) : Handler A := λ _ w, (Raise e, w).
Definition lift {A} (r : Result A) : Handler A := λ _ w, (r, w).
Definition bind {A B} (m : Handler A) (k : A → Handler B) : Handler B :=
  λ env w,
    match m env w with
    | (Ok a, w') => k a env w'
    | (Raise e, w') => (Raise e, w')
    end.

(** [try: body except Exception as e: handler(e)] *)
Definition try_except {A} (body : Handler A) (handler : Exception → Handler A)
    : Handler A :=
  λ env w,
    match body env w with
    | (Ok a, w') => (Ok a, w')
    | (Raise e, w') => handler e env w'
    end.

(** [try: body finally: final] *)
Definition try_finally {A} (body : Handler A) (final : Handler unit)
    : Handler A :=
  λ env w,
    let '(r, w') := body env w in
    match final env w' with
    | (Ok _, w'') => (r, w'')
    | (Raise e, w'') => (Raise e, w'')
    end.

Definition emit (e : Effect) (w : World) : World :=
  set_effects (effects w ++ [e]) w.

End Model.

Notation "'let*' x ':=' m 'in' k" := (bind m (λ x, k))
  (at level 10, x name, m at level 100, k at level 200).
Notation "m1 ';;' m2" := (bind m1 (λ _, m2))
  (at level 100, m2 at level 200, right associativity).

Section Handlers.
Context `{Externals}.

(** ** The session *)

(** The rows a statement of the session reads and writes. *)
Definition session_rows (w : World) : list Document :=
  default (documents w) (transaction w).

(** [db.execute(stmt)]: the statement is sent; the database either refuses it
    or runs it inside the session's transaction. *)
Definition db_execute {A} (stmt : Statement)
    (run : list Document → Result (A * list Document)) : Handler A :=
  λ env w,
    let w1 := emit (Execute stmt) w in
    match execute_fault env stmt with
    | Some e => (Raise e, w1)
    | None =>
        match run (session_rows w1) with
        | Ok (a, rows) => (Ok a, set_transaction (Some rows) w1)
        | Raise e => (Raise e, w1)
        end
    end.

(** The INSERT that [commit] flushes for an object registered by [db.add]:
    the row takes the next id of the sequence, a NULL embedding and the
    current time.  The sequence is not transactional. *)
Definition db_flush_insert (title content : string) (uid : Z)
    : Handler Document :=
  λ env w,
    let stmt := InsertDocument title content uid in
    let w1 := emit (Execute stmt) w in
    match execute_fault env stmt with
    | Some e => (Raise e, w1)
    | None =>
        let pk := documents_id_seq w1 + 1 in
        let row := Document.mk pk title content uid None (now env) in
        (Ok row,
         set_transaction (Some (session_rows w1 ++ [row]))
           (set_documents_id_seq pk w1))
    end.

(** [db.commit()] *)
Definition db_commit : Handler unit :=
  λ env w,
    let w1 := emit Commit w in
    match commit_fault env with
    | Some e => (Raise e, w1)
    | None => (Ok (), set_transaction None (set_documents (session_rows w1) w1))
    end.

(** [db.rollback()] *)
Definition rollback_session (w : World) : World :=
  set_transaction None (emit Rollback w).
Definition db_rollback : Handler unit := λ _ w, (Ok (), rollback_session w).

(** [db.close()]: what was not committed is dropped. *)
Definition close_session (w : World) : World :=
  set_transaction None (emit Close w).
Definition db_close : Handler unit := λ _ w, (Ok (), close_session w).

(** [app/database.py], [get_db]: the session is closed when the request ends,
    by [session.close()] in the [finally] and once more on leaving the
    [async with]; the second call finds the session closed and changes
    nothing, and the trace records the closing once. *)
Definition get_db {A} (body : Handler A) : Handler A :=
  try_finally body db_close.

(** [scalar_one_or_none()] *)
Definition scalar_one_or_none (rows : list Document) : Result (option Document) :=
  match rows with
  | [] => Ok None
  | [d] => Ok (Some d)
  | _ => Raise (DatabaseError "Multiple rows were found when one or none was required")
  end.

(** [app/utils/logger.py], [log_user_action] *)
Definition log_user_action (user_id : Z) (action : string)
    (details : list (string * PyValue)) : Handler unit :=
  λ _ w, (Ok (), emit (LogUserAction user_id action details) w).

(** ** [app/utils/embeddings.py] *)

(** [get_embedding_model] under [lru_cache]: the model is built on the first
    call that succeeds and kept; a call that raises caches nothing. *)
Definition get_embedding_model : Handler SentenceTransformer :=
  λ env w,
    match model_cache (process env) w with
    | Some model => (Ok model, w)
    | None =>
        let w1 := emit (LoadModel "all-MiniLM-L6-v2") w in
        match load_model env with
        | Ok model => (Ok model, set_model_cache (process env) (Some model) w1)
        | Raise e => (Raise e, w1)
        end
    end.

Definition generate_embedding (text : string) : Handler vector :=
  let* model := get_embedding_model in
  let* embedding := lift (encode model text) in
  ret embedding.

(** ** [app/tasks/embeddings.py] *)

(** [{"status": "success", "document_id": document_id}] *)
Definition success (document_id : Z) : TaskResult.t :=
  TaskResult.mk "success" document_id.

Definition generate_document_embedding (document_id : Z) (content : string)
    : Handler TaskResult.t :=
  let* embedding := generate_embedding content in
  try_finally
    (try_except
       (db_execute (UpdateEmbedding document_id embedding)
          (λ rows, Ok ((), update_embedding document_id embedding rows)) ;;
        db_commit ;;
        ret (success document_id))
       (λ e, db_rollback ;; raise e))
    db_close.

(** ** [app/routers/documents.py] *)

Definition create_document (document_data : DocumentCreate.t)
    (current_user : User.t) : Handler DocumentResponse.t :=
  get_db (
    let* flushed :=
      db_flush_insert (DocumentCreate.title document_data)
        (DocumentCreate.content document_data) (User.id current_user) in
    db_commit ;;
    let* refreshed :=
      db_execute (RefreshDocument (Document.id flushed))
        (λ rows, match select_by_pk (Document.id flushed) rows with
                 | d :: _ => Ok (d, rows)
                 | [] => Raise (DatabaseError "Could not refresh instance")
                 end) in
    let new_document := refreshed in
    (* [generate_document_embedding.delay(new_document.id, content)]: the
       message goes to the broker, or the broker's error is raised *)
    (λ env w,
       match delay_fault env with
       | Some e => (Raise e, w)
       | None =>
           (Ok (),
            set_celery_queue
              (celery_queue w ++
                 [(Document.id new_document,
                   DocumentCreate.content document_data)])
              (emit (Delay (Document.id new_document)
                       (DocumentCreate.content document_data)) w))
       end) ;;
    log_user_action (User.id current_user) "DOCUMENT_CREATED"
      [("document_id", PyInt (Document.id new_document))] ;;
    ret (DocumentResponse.mk (Document.id new_document)
           (Document.title new_document) (Document.content new_document)
           (Document.user_id new_document) (Document.created_at new_document))).

(** ['[' + ','.join(map(str, query_embedding)) + ']'] *)
Definition embedding_str (query_embedding : vector) : string :=
  "[" +:+ String.concat "," (float_str <$> query_embedding) +:+ "]".

(** One element of the list comprehension that builds the response;
    [float(None)] raises. *)
Definition to_search_result (doc : SimilarityRow.t)
    : Result DocumentSearchResult.t :=
  match SimilarityRow.similarity doc with
  | Some s =>
      Ok (DocumentSearchResult.mk (SimilarityRow.id doc)
            (SimilarityRow.title doc) (SimilarityRow.content doc) s
            (SimilarityRow.created_at doc))
  | None => Raise (TypeError "float() argument must be a string or a real number")
  end.

(** The row of the response that a kept document with embedding [e] yields. *)
Definition search_result_of (q : vector) (d : Document) (e : vector)
    : DocumentSearchResult.t :=
  DocumentSearchResult.mk (Document.id d) (Document.title d)
    (Document.content d) (1 - cosine_distance e q)%Qc (Document.created_at d).

Fixpoint comprehension {A B} (f : A → Result B) (l : list A) : Result (list B) :=
  match l with
  | [] => Ok []
  | x :: l' =>
      match f x with
      | Raise e => Raise e
      | Ok y =>
          match comprehension f l' with
          | Raise e => Raise e
          | Ok ys => Ok (y :: ys)
          end
      end
  end.

(** The statement of [search_documents] as the database runs it: the bound
    text is cast to a vector, then the SELECT is evaluated. *)
Definition run_select_similar (query_embedding : string) (uid : Z)
    (rows : list Document) : Result (list SimilarityRow.t * list Document) :=
  match vector_in query_embedding with
  | Raise e => Raise e
  | Ok q => Ok (select_similar rows q uid, rows)
  end.

Definition search_documents (search_request : DocumentSearchRequest.t)
    (current_user : User.t) : Handler (list DocumentSearchResult.t) :=
  get_db (
    let* query_embedding :=
      generate_embedding (DocumentSearchRequest.query search_request) in
    let* documents :=
      db_execute
        (SelectSimilar (embedding_str query_embedding) (User.id current_user))
        (run_select_similar (embedding_str query_embedding)
           (User.id current_user)) in
    log_user_action (User.id current_user) "DOCUMENT_SEARCH"
      [("query", PyStr (DocumentSearchRequest.query search_request))] ;;
    lift (comprehension to_search_result documents)).

Definition delete_document (document_id : Z) (current_user : User.t)
    : Handler unit :=
  get_db (
    let* result :=
      db_execute (SelectDocument document_id (User.id current_user))
        (λ rows, Ok (select_document document_id (User.id current_user) rows,
                     rows)) in
    let* document := lift (scalar_one_or_none result) in
    match document with
    | None => raise (HTTPException 404 "Document not found")
    | Some _ =>
        db_execute (DeleteDocument document_id)
          (λ rows, Ok ((), delete_where_id document_id rows)) ;;
        db_commit ;;
        log_user_action (User.id current_user) "DOCUMENT_DELETED"
          [("document_id", PyInt document_id)] ;;
        ret ()
    end).

End Handlers.

(** ** [app/schemas.py]: validation of the search request *)

(** The value of a key of a JSON object; of two equal keys the later wins. *)
Fixpoint json_get (key : string) (fields : list (string * JSON)) : option JSON :=
  match fields with
  | [] => None
  | (k, v) :: rest =>
      match json_get key rest with
      | Some v' => Some v'
      | None => if decide (k = key) then Some v else None
      end
  end.

(** [class DocumentSearchRequest(BaseModel): query: str] on a JSON body:
    the field is required and must be a string; nothing constrains its
    length. *)
Definition validate_search_request (body : JSON)
    : Result DocumentSearchRequest.t :=
  match body with
  | JObject fields =>
      match json_get "query" fields with
      | Some (JString s) => Ok (DocumentSearchRequest.mk s)
      | Some _ =>
          Raise (RequestValidationError ["body"; "query"]
                   "Input should be a valid string")
      | None => Raise (RequestValidationError ["body"; "query"] "Field required")
      end
  | _ =>
      Raise (RequestValidationError ["body"]
               "Input should be a valid dictionary or object to extract fields from")
  end.

Section System.
Context `{Externals}.

(** [POST /documents/search]: the framework resolves the dependencies of the
    route, which opens the session of [get_db], and validates the body into
    the request model.  A rejected body is reported once the dependencies
    are resolved, and the session is closed; otherwise the route function
    runs. *)
Definition post_documents_search (body : JSON) (current_user : User.t)
    : Handler (list DocumentSearchResult.t) :=
  match validate_search_request body with
  | Raise e => get_db (raise e)
  | Ok search_request => search_documents search_request current_user
  end.

(** ** The worker and the system *)

(** The worker takes the [n]-th message of the broker and runs the task; the
    outcome goes to the result backend.  The message leaves the queue when it
    is acknowledged; an unacknowledged one will be delivered again. *)
Definition worker_run (n : nat) (ack : bool) (env : Env) (w : World) : World :=
  match celery_queue w !! n with
  | None => w
  | Some (document_id, content) =>
      let w0 := if ack then set_celery_queue (delete n (celery_queue w)) w else w in
      let '(r, w1) :=
        generate_document_embedding document_id content (in_process Worker env) w0 in
      set_celery_results (celery_results w1 ++ [r]) w1
  end.

Inductive Event :=
| PostDocuments (current_user : User.t) (document_data : DocumentCreate.t)
| PostDocumentsSearch (current_user : User.t) (body : JSON)
| DeleteDocuments (current_user : User.t) (document_id : Z)
| WorkerRun (n : nat) (ack : bool).

Definition step (ev : Event) (env : Env) (w : World) : World :=
  match ev with
  | PostDocuments u data => (create_document data u (in_process Web env) w).2
  | PostDocumentsSearch u body =>
      (post_documents_search body u (in_process Web env) w).2
  | DeleteDocuments u document_id =>
      (delete_document document_id u (in_process Web env) w).2
  | WorkerRun n ack => worker_run n ack env w
  end.

Fixpoint run (evs : list (Event * Env)) (w : World) : World :=
  match evs with
  | [] => w
  | (ev, env) :: evs' => run evs' (step ev env w)
  end.

Definition initial_world : World := mkWorld [] 0 None [] [] None None [].

Definition reachable (w : World) : Prop := ∃ evs, run evs initial_world = w.

(** The result backend holds a success of the indexing task of this document. *)
Definition task_completed (document_id : Z) (w : World) : Prop :=
  Ok (success document_id) ∈ celery_results w.

(** What holds of every world the system can reach: requests and task runs
    are whole, ids come from the sequence, and an embedding is only ever
    written by a run of the task that succeeded. *)
Record consistent (w : World) : Prop := {
  no_open_transaction : transaction w = None;
  ids_unique : NoDup (Document.id <$> documents w);
  ids_from_sequence :
    ∀ d, d ∈ documents w → Document.id d ≤ documents_id_seq w;
  queued_from_sequence :
    ∀ i c, (i, c) ∈ celery_queue w → i ≤ documents_id_seq w;
  completed_from_sequence :
    ∀ i, task_completed i w → i ≤ documents_id_seq w;
  indexed_by_task :
    ∀ d, d ∈ documents w → is_Some (Document.embedding d) →
         task_completed (Document.id d) w;
}.

(** The effects a run added to the trace. *)
Definition new_effects (w w' : World) : list Effect :=
  drop (length (effects w)) (effects w').

End System.

(** ** [app/routers/documents.py]: reading documents *)

(** [ORDER BY created_at DESC] *)
Definition created_at_desc `{Externals} (a b : Document) : Prop :=
  Document.created_at b ≤ Document.created_at a.

Global Instance created_at_desc_dec `{Externals} : RelDecision created_at_desc.
Proof. intros a b. unfold created_at_desc. apply _. Defined.

Section Reading.
Context `{Externals}.

(** The document as [response_model=DocumentResponse] serialises it: the
    embedding is not part of the response. *)
Definition document_response (d : Document) : DocumentResponse.t :=
  DocumentResponse.mk (Document.id d) (Document.title d) (Document.content d)
    (Document.user_id d) (Document.created_at d).

(** The query of [list_documents],
    [select(Document).filter(Document.user_id == current_user.id)
       .order_by(Document.created_at.desc())], with [scalars().all()].
    Rows with equal times come in an order the database leaves open; the
    model sorts the heap order with a merge sort. *)
Definition select_user_documents (uid : Z) (table : list Document)
    : list Document :=
  merge_sort created_at_desc (filter (λ d, Document.user_id d = uid) table).

Definition get_document (document_id : Z) (current_user : User.t)
    : Handler DocumentResponse.t :=
  get_db (
    let* result :=
      db_execute (SelectDocument document_id (User.id current_user))
        (λ rows, Ok (select_document document_id (User.id current_user) rows,
                     rows)) in
    let* document := lift (scalar_one_or_none result) in
    match document with
    | None => raise (HTTPException 404 "Document not found")
    | Some d =>
        log_user_action (User.id current_user) "DOCUMENT_VIEWED"
          [("document_id", PyInt document_id)] ;;
        ret (document_response d)
    end).


(** Two rows that differ at most in the embedding. *)
Definition same_document (d d' : Document) : Prop :=
  Document.id d' = Document.id d ∧ Document.title d' = Document.title d ∧
  Document.content d' = Document.content d ∧
  Document.user_id d' = Document.user_id d ∧
  Document.created_at d' = Document.created_at d.

End Reading.

(** ** Reading a vector literal back *)

(** The pieces of a string between the occurrences of a separator. *)
Fixpoint split_on (sep : ascii) (s : string) : list string :=
  match s with
  | EmptyString => [EmptyString]
  | String c s' =>
      if Ascii.eqb c sep then EmptyString :: split_on sep s'
      else
        match split_on sep s' with
        | piece :: pieces => String c piece :: pieces
        | [] => [String c EmptyString]
        end
  end.

(** The string without its last character, and that character. *)
Fixpoint unsnoc (s : string) : option (string * ascii) :=
  match s with
  | EmptyString => None
  | String c s' =>
      match unsnoc s' with
      | None => Some (EmptyString, c)
      | Some (init, last) => Some (String c init, last)
      end
  end.

(** The elements of a bracketed comma-separated list, as text. *)
Definition vector_literal_elements (s : string) : option (list string) :=
  match s with
  | EmptyString => None
  | String first rest =>
      match unsnoc rest with
      | None => None
      | Some (inner, last) =>
          if Ascii.eqb first "[" && Ascii.eqb last "]" then
            Some (match inner with
                  | EmptyString => []
                  | _ => split_on "," inner
                  end)
          else None
      end
  end.

Definition has_char (c : ascii) (s : string) : Prop :=
  c ∈ list_ascii_of_string s.

Global Instance has_char_dec c s : Decision (has_char c s).
Proof. unfold has_char. apply _. Defined.

(** ** A small instance of the interface, to run the model on *)

Module Demo.

(** Reads a decimal numeral, with or without a sign. *)
Definition parse_int (s : string) : option Z :=
  Z.of_int <$> NilZero.int_of_string s.

Fixpoint parse_all (l : list string) : option (list Z) :=
  match l with
  | [] => Some []
  | s :: l' =>
      match parse_int s, parse_all l' with
      | Some z, Some zs => Some (z :: zs)
      | _, _ => None
      end
  end.

(** Components are integers written in decimal; the model sends a text to
    its length and a constant; the distance of two vectors is a tenth of
    the gap between their first components. *)
Definition externals : Externals := {|
  pyfloat := Z;
  float_str := λ z, NilZero.string_of_int (Z.to_int z);
  SentenceTransformer := unit;
  encode := λ _ text, Ok [Z.of_nat (String.length text); 1];
  cosine_distance := λ a b,
    Q2Qc (inject_Z (Z.abs (default 0 (head a) - default 0 (head b))) / 10);
  vector_in := λ s,
    match vector_literal_elements s with
    | Some (x :: l) =>
        match parse_all (x :: l) with
        | Some v => Ok v
        | None => Raise (DatabaseError "invalid input syntax for type vector")
        end
    | Some [] => Raise (DatabaseError "vector must have at least 1 dimension")
    | None => Raise (DatabaseError "invalid input syntax for type vector")
    end;
|}.

#[local] Existing Instance externals.

Definition env : Env :=
  mkEnv Web (Ok (tt : SentenceTransformer)) (λ _, None) None None
    1700000000.

Definition alice : User.t := User.mk 1.
Definition bob : User.t := User.mk 2.

Definition doc (id : Z) (content : string) (uid : Z) (e : option (list Z))
    : Document.t :=
  Document.mk id "t" content uid (e : option (list pyfloat)) 1700000000.

(** Alice has four indexed documents and one that is not indexed; Bob has one. *)
Definition table : list Document.t :=
  [ doc 1 "aaaa" 1 (Some [4; 1]);
    doc 2 "bb" 2 (Some [2; 1]);
    doc 3 "cccccccc" 1 (Some [8; 1]);
    doc 4 "dd" 1 None;
    doc 5 "ee" 1 (Some [2; 1]);
    doc 6 "fff" 1 (Some [3; 1]) ].

Definition world : World :=
  mkWorld table 6 None [] [] None None [].

(** The worker, with a model that loads, and with one that does not. *)
Definition worker_env : Env := in_process Worker env.
Definition no_model : Env :=
  mkEnv Worker (Raise (ModelError "cannot load")) (λ _, None) None None
    1700000000.
Definition web_no_model : Env := in_process Web no_model.

(** The scenario of the specification: Alice stores a document, the worker
    indexes it, Alice and Bob search. *)
Definition aspirin : DocumentCreate.t :=
  DocumentCreate.mk "Aspirin dosage"
    "Standard adult aspirin dose is 81-325mg daily".
Definition question : DocumentSearchRequest.t :=
  DocumentSearchRequest.mk "how much aspirin should I take".

Definition create_events : list (Event * Env) :=
  [(PostDocuments alice aspirin, env)].
Definition created : World := run create_events initial_world.
Definition indexed : World := worker_run 0 true env created.

(** The ids of a response, in order. *)
Definition response_ids (r : Result (list DocumentSearchResult.t) * World)
    : Result (list Z) :=
  match r.1 with
  | Ok results => Ok (DocumentSearchResult.id <$> results)
  | Raise e => Raise e
  end.

End Demo.

(** ** More worlds of the small instance *)

Module Cases.
#[local] Existing Instance Demo.externals.

Definition web_env : Env := in_process Web Demo.env.

(** The only document of [Demo.created], and what it is once indexed. *)
Definition aspirin_row : Document :=
  Document.mk 1 "Aspirin dosage"
    "Standard adult aspirin dose is 81-325mg daily" 1 None 1700000000.
Definition aspirin_indexed : Document :=
  Document.set_embedding (Some [45; 1] : option (list pyfloat)) aspirin_row.

(** Alice and Bob store the same text, and both documents are indexed. *)
Definition both_events : list (Event * Env) :=
  [(PostDocuments Demo.alice Demo.aspirin, Demo.env);
   (PostDocuments Demo.bob Demo.aspirin, Demo.env);
   (WorkerRun 0 true, Demo.env);
   (WorkerRun 0 true, Demo.env)].
Definition both : World := run both_events initial_world.
Definition bobs_row : Document :=
  Document.mk 2 "Aspirin dosage"
    "Standard adult aspirin dose is 81-325mg daily" 2
    (Some [45; 1] : option (list pyfloat)) 1700000000.

(** Alice deletes her document before the worker gets to it. *)
Definition deleted : World :=
  (delete_document 1 Demo.alice web_env Demo.created).2.

End Cases.

(** * Properties *)

(** ** The order of the similarity query *)

Global Instance asc_nulls_last_trans : Transitive asc_nulls_last.
Proof.
  intros [x|] [y|] [z|]; simpl; try done.
  intros Hxy Hyz. by etrans.
Qed.

Global Instance asc_nulls_last_total : Total asc_nulls_last.
Proof.
  intros [x|] [y|]; simpl; auto.
  destruct (total Qcle x y); auto.
Qed.

Section SqlFacts.
Context `{Externals}.

Global Instance order_by_trans q : Transitive (order_by q).
Proof. intros a b c. unfold order_by. apply asc_nulls_last_trans. Qed.

Global Instance order_by_total q : Total (order_by q).
Proof. intros a b. unfold order_by. apply asc_nulls_last_total. Qed.

Lemma select_similar_documents_elem table q uid d :
  d ∈ select_similar_documents table q uid →
  d ∈ table ∧ where_clause uid d.
Proof.
  unfold select_similar_documents. intros Hd.
  apply subseteq_take in Hd.
  rewrite merge_sort_Permutation in Hd.
  apply list_elem_of_filter in Hd. tauto.
Qed.

Lemma select_similar_documents_length table q uid :
  (length (select_similar_documents table q uid) ≤ 3)%nat.
Proof.
  unfold select_similar_documents, LIMIT. rewrite length_take. lia.
Qed.

Lemma select_similar_documents_sorted table q uid :
  StronglySorted (order_by q) (select_similar_documents table q uid).
Proof.
  unfold select_similar_documents.
  pose proof (StronglySorted_merge_sort (order_by q)
                (filter (where_clause uid) table)) as Hs.
  rewrite <- (take_drop LIMIT (merge_sort _ _)) in Hs.
  by apply StronglySorted_app_1_l in Hs.
Qed.

(** What the LIMIT cuts off is no nearer than what it keeps. *)
Lemma select_similar_documents_nearest table q uid kept cut :
  kept ∈ select_similar_documents table q uid →
  cut ∈ table → where_clause uid cut →
  cut ∉ select_similar_documents table q uid →
  order_by q kept cut.
Proof.
  unfold select_similar_documents. intros Hk Hc Hw Hn.
  pose proof (StronglySorted_merge_sort (order_by q)
                (filter (where_clause uid) table)) as Hs.
  assert (cut ∈ merge_sort (order_by q) (filter (where_clause uid) table))
    as Hin.
  { rewrite merge_sort_Permutation. apply list_elem_of_filter. done. }
  rewrite <- (take_drop LIMIT (merge_sort _ _)) in Hs, Hin.
  apply elem_of_app in Hin as [Hin|Hin]; [done|].
  eapply StronglySorted_app_1_elem_of; eauto.
Qed.

Lemma to_search_result_project q d e :
  Document.embedding d = Some e →
  to_search_result (project q d) = Ok (search_result_of q d e).
Proof.
  intros He. unfold to_search_result, project, similarity_expr, distance_expr.
  simpl. by rewrite He.
Qed.

Lemma comprehension_project q (picked : list Document) :
  Forall (λ d, is_Some (Document.embedding d)) picked →
  ∃ results,
    comprehension to_search_result (project q <$> picked) = Ok results ∧
    Forall2 (λ d r, ∃ e, Document.embedding d = Some e ∧
                         r = search_result_of q d e) picked results.
Proof.
  induction 1 as [|d l [e He] _ (results & Hc & Hf)].
  - exists []. split; [done|constructor].
  - exists (search_result_of q d e :: results). split.
    + rewrite fmap_cons. simpl comprehension.
      rewrite (to_search_result_project _ _ _ He). by rewrite Hc.
    + constructor; eauto.
Qed.

Lemma select_similar_results table q uid :
  ∃ results,
    comprehension to_search_result (select_similar table q uid) = Ok results ∧
    Forall2 (λ d r, ∃ e, Document.embedding d = Some e ∧
                         r = search_result_of q d e)
      (select_similar_documents table q uid) results.
Proof.
  unfold select_similar. apply comprehension_project.
  apply Forall_forall. intros d Hd.
  apply select_similar_documents_elem in Hd as [_ [_ Hs]]. done.
Qed.

End SqlFacts.

(** ** The handlers, step by step *)

Section HandlerFacts.
Context `{Externals}.

Lemma generate_embedding_unfold text env w :
  generate_embedding text env w =
  match model_cache (process env) w with
  | Some model => (encode model text, w)
  | None =>
      match load_model env with
      | Ok model =>
          (encode model text,
           set_model_cache (process env) (Some model)
             (emit (LoadModel "all-MiniLM-L6-v2") w))
      | Raise e => (Raise e, emit (LoadModel "all-MiniLM-L6-v2") w)
      end
  end.
Proof.
  unfold generate_embedding, get_embedding_model, bind, lift, ret.
  destruct (model_cache (process env) w) as [m|].
  - by destruct (encode m text).
  - destruct (load_model env) as [m|e]; [|done]. by destruct (encode m text).
Qed.

(** Embedding a text touches neither the table nor the session nor Celery. *)
Lemma generate_embedding_frame text env w r w1 :
  generate_embedding text env w = (r, w1) →
  documents w1 = documents w ∧ transaction w1 = transaction w ∧
  documents_id_seq w1 = documents_id_seq w ∧
  celery_queue w1 = celery_queue w ∧ celery_results w1 = celery_results w ∧
  (effects w1 = effects w ∨
   effects w1 = effects w ++ [LoadModel "all-MiniLM-L6-v2"]).
Proof.
  rewrite generate_embedding_unfold. intros Hg.
  destruct (model_cache (process env) w) as [m|]; [by simplify_eq; auto 10|].
  destruct (load_model env) as [m|e]; simplify_eq;
    destruct (process env); simpl; auto 10.
Qed.

Lemma search_documents_unfold req u env w :
  search_documents req u env w =
  match generate_embedding (DocumentSearchRequest.query req) env w with
  | (Raise e, w1) => (Raise e, close_session w1)
  | (Ok emb, w1) =>
      let stmt := SelectSimilar (embedding_str emb) (User.id u) in
      let w2 := emit (Execute stmt) w1 in
      match execute_fault env stmt with
      | Some e => (Raise e, close_session w2)
      | None =>
          match vector_in (embedding_str emb) with
          | Raise e => (Raise e, close_session w2)
          | Ok q =>
              (comprehension to_search_result
                 (select_similar (session_rows w2) q (User.id u)),
               close_session
                 (emit (LogUserAction (User.id u) "DOCUMENT_SEARCH"
                          [("query", PyStr (DocumentSearchRequest.query req))])
                    (set_transaction (Some (session_rows w2)) w2)))
          end
      end
  end.
Proof.
  unfold search_documents, get_db, try_finally, bind at 1.
  destruct (generate_embedding _ env w) as [[emb|e] w1]; [|done].
  unfold bind, db_execute, run_select_similar, log_user_action, lift, db_close.
  cbv zeta.
  destruct (execute_fault env _) as [e|]; [done|].
  destruct (vector_in _) as [q|e]; [|done].
  by destruct (comprehension _ _).
Qed.

End HandlerFacts.

(** ** The similarity query: what it returns, and in which order *)

Lemma StronglySorted_Forall2 {A B} (R : relation A) (R' : relation B)
    (T : A → B → Prop) (l : list A) (l' : list B) :
  (∀ x y x' y', R x y → T x x' → T y y' → R' x' y') →
  StronglySorted R l → Forall2 T l l' → StronglySorted R' l'.
Proof.
  intros HR Hs. revert l'.
  induction Hs as [|x l Hs IH Hx]; intros l' Hf.
  - apply Forall2_nil_inv_l in Hf as ->. constructor.
  - apply Forall2_cons_inv_l in Hf as (x' & k' & HTx & Hl & ->).
    constructor; [by apply IH|].
    apply Forall_forall. intros y' Hy'.
    apply list_elem_of_lookup in Hy' as [i Hi].
    destruct (Forall2_lookup_r _ _ _ _ _ Hl Hi) as (y & Hy & HT).
    eapply HR; [|eassumption|eassumption].
    eapply (proj1 (Forall_forall _ _) Hx). eapply list_elem_of_lookup_2; eauto.
Qed.

Lemma similarity_antitone (x y : Qc) : (x ≤ y)%Qc → (1 - y ≤ 1 - x)%Qc.
Proof.
  intros Hxy. unfold Qcminus. apply Qcplus_le_mono_l.
  by apply Qcopp_le_compat.
Qed.

Section SearchProperties.
Context `{Externals}.

Lemma session_rows_search_statement text env w emb w1 stmt :
  generate_embedding text env w = (Ok emb, w1) →
  session_rows (emit (Execute stmt) w1) = session_rows w.
Proof.
  intros Hg. apply generate_embedding_frame in Hg as (Hd & Ht & _).
  unfold session_rows, emit. simpl. by rewrite Hd, Ht.
Qed.

(** A response of [search_documents] is the image of the kept documents. *)
Lemma search_documents_response req u env w results w' :
  search_documents req u env w = (Ok results, w') →
  ∃ emb w1 q,
    generate_embedding (DocumentSearchRequest.query req) env w = (Ok emb, w1) ∧
    vector_in (embedding_str emb) = Ok q ∧
    Forall2 (λ d r, ∃ e, Document.embedding d = Some e ∧
                         r = search_result_of q d e)
      (select_similar_documents (session_rows w) q (User.id u)) results.
Proof.
  rewrite search_documents_unfold.
  destruct (generate_embedding _ env w) as [[emb|e] w1] eqn:Hg; [|done].
  cbv zeta. destruct (execute_fault env _); [done|].
  destruct (vector_in _) as [q|] eqn:Hq; [|done].
  rewrite (session_rows_search_statement _ _ _ _ _ _ Hg).
  intros Hr. exists emb, w1, q. split_and!; [done..|].
  destruct (select_similar_results (session_rows w) q (User.id u))
    as (results' & Hc & Hf).
  rewrite Hc in Hr. by simplify_eq.
Qed.

(** C1. The similarity query returns at most three rows; every row it returns
    comes from a document of the table that the querying owner owns and whose
    embedding is present; a document whose embedding is absent is not kept
    (its score would be NULL, not zero), so that no returned row carries its
    id when ids are unique.  A response of [search_documents] is made of
    exactly such rows. *)
Theorem search_top3_owned_and_indexed
    (table : list Document) (q : vector) (uid : Z) :
  (length (select_similar table q uid) ≤ 3)%nat ∧
  (∀ r, r ∈ select_similar table q uid →
     ∃ d e, d ∈ table ∧ r = project q d ∧
            Document.user_id d = uid ∧ Document.embedding d = Some e) ∧
  (∀ d, d ∈ table → Document.embedding d = None →
     similarity_expr q d = None ∧
     (d ∉ select_similar_documents table q uid) ∧
     (NoDup (Document.id <$> table) →
      Document.id d ∉ (SimilarityRow.id <$> select_similar table q uid))) ∧
  (∀ req u env w results w',
     search_documents req u env w = (Ok results, w') →
     (length results ≤ 3)%nat ∧
     ∀ r, r ∈ results →
       ∃ d e, d ∈ session_rows w ∧
              Document.user_id d = User.id u ∧
              Document.embedding d = Some e ∧
              DocumentSearchResult.id r = Document.id d ∧
              DocumentSearchResult.title r = Document.title d ∧
              DocumentSearchResult.content r = Document.content d ∧
              DocumentSearchResult.created_at r = Document.created_at d).
Proof.
  split_and!.
  - unfold select_similar. rewrite length_fmap.
    apply select_similar_documents_length.
  - intros r Hr. unfold select_similar in Hr.
    apply list_elem_of_fmap in Hr as (d & -> & Hd).
    apply select_similar_documents_elem in Hd as (Hd & Hu & [e He]).
    by exists d, e.
  - intros d Hd Hnone. split_and!.
    + unfold similarity_expr, distance_expr. by rewrite Hnone.
    + intros Hin. apply select_similar_documents_elem in Hin as (_ & _ & [e He]).
      congruence.
    + intros Hnd Hin. unfold select_similar in Hin.
      rewrite <- list_fmap_compose in Hin.
      apply list_elem_of_fmap in Hin as (d' & Hid & Hd').
      apply select_similar_documents_elem in Hd' as (Hd' & _ & [e He]).
      simpl in Hid.
      assert (d = d') as <-; [|congruence].
      apply list_elem_of_lookup in Hd as [i Hi].
      apply list_elem_of_lookup in Hd' as [j Hj].
      assert (i = j) as <-; [|congruence].
      eapply NoDup_lookup; [exact Hnd| |]; rewrite list_lookup_fmap.
      * by rewrite Hi.
      * rewrite Hj. simpl. by rewrite Hid.
  - intros req u env w results w' Hs.
    apply search_documents_response in Hs as (emb & w1 & q' & _ & _ & Hf).
    split.
    + rewrite <- (Forall2_length _ _ _ Hf).
      apply select_similar_documents_length.
    + intros r Hr. apply list_elem_of_lookup in Hr as [i Hi].
      destruct (Forall2_lookup_r _ _ _ _ _ Hf Hi) as (d & Hd & e & He & ->).
      apply list_elem_of_lookup_2 in Hd.
      apply select_similar_documents_elem in Hd as (Hd & Hu & _).
      exists d, e. by split_and!.
Qed.

(** C2. The similarity of every returned row is one minus the cosine distance
    between the stored embedding and the query vector; the rows come by
    ascending distance, that is by descending similarity, and what the limit
    cuts off is no nearer than what is returned.  The same holds of a response
    of [search_documents], the query vector being the cast of the bound text. *)
Theorem search_similarity_and_order
    (table : list Document) (q : vector) (uid : Z) :
  (∀ r, r ∈ select_similar table q uid →
     ∃ d e, d ∈ table ∧ Document.embedding d = Some e ∧ r = project q d ∧
            SimilarityRow.similarity r = Some (1 - cosine_distance e q)%Qc) ∧
  StronglySorted (order_by q) (select_similar_documents table q uid) ∧
  StronglySorted
    (λ r1 r2, ∃ s1 s2, SimilarityRow.similarity r1 = Some s1 ∧
                       SimilarityRow.similarity r2 = Some s2 ∧ (s2 ≤ s1)%Qc)
    (select_similar table q uid) ∧
  (∀ kept cut e1 e2,
     kept ∈ select_similar_documents table q uid →
     cut ∈ table → where_clause uid cut →
     cut ∉ select_similar_documents table q uid →
     Document.embedding kept = Some e1 → Document.embedding cut = Some e2 →
     (1 - cosine_distance e2 q ≤ 1 - cosine_distance e1 q)%Qc) ∧
  (∀ req u env w results w',
     search_documents req u env w = (Ok results, w') →
     ∃ emb w1 q',
       generate_embedding (DocumentSearchRequest.query req) env w
         = (Ok emb, w1) ∧
       vector_in (embedding_str emb) = Ok q' ∧
       (∀ r, r ∈ results →
          ∃ d e, d ∈ session_rows w ∧ Document.embedding d = Some e ∧
                 DocumentSearchResult.id r = Document.id d ∧
                 DocumentSearchResult.similarity r
                   = (1 - cosine_distance e q')%Qc) ∧
       StronglySorted
         (λ r1 r2, (DocumentSearchResult.similarity r2
                      ≤ DocumentSearchResult.similarity r1)%Qc)
         results).
Proof.
  split_and!.
  - intros r Hr. unfold select_similar in Hr.
    apply list_elem_of_fmap in Hr as (d & -> & Hd).
    apply select_similar_documents_elem in Hd as (Hd & Hu & [e He]).
    exists d, e. split_and!; [done..|].
    unfold project, similarity_expr, distance_expr. simpl. by rewrite He.
  - apply select_similar_documents_sorted.
  - eapply (StronglySorted_Forall2 (order_by q) _
              (λ d r, r = project q d ∧ is_Some (Document.embedding d)));
      [|apply select_similar_documents_sorted|].
    + intros x y ? ? Hxy [-> [e1 He1]] [-> [e2 He2]].
      unfold order_by, distance_expr in Hxy. rewrite He1, He2 in Hxy.
      exists (1 - cosine_distance e1 q)%Qc, (1 - cosine_distance e2 q)%Qc.
      unfold project, similarity_expr, distance_expr. simpl.
      rewrite He1, He2. split_and!; [done..|].
      by apply similarity_antitone.
    + unfold select_similar. apply Forall2_fmap_r, Forall_Forall2_diag.
      apply Forall_forall. intros d Hd. split; [done|].
      by apply select_similar_documents_elem in Hd as (_ & _ & ?).
  - intros kept cut e1 e2 Hk Hc Hw Hn He1 He2.
    pose proof (select_similar_documents_nearest _ _ _ _ _ Hk Hc Hw Hn) as Ho.
    unfold order_by, distance_expr in Ho. rewrite He1, He2 in Ho.
    by apply similarity_antitone.
  - intros req u env w results w' Hs.
    apply search_documents_response in Hs as (emb & w1 & q' & Hg & Hq & Hf).
    exists emb, w1, q'. split_and!; [done..| |].
    + intros r Hr. apply list_elem_of_lookup in Hr as [i Hi].
      destruct (Forall2_lookup_r _ _ _ _ _ Hf Hi) as (d & Hd & e & He & ->).
      apply list_elem_of_lookup_2 in Hd.
      apply select_similar_documents_elem in Hd as (Hd & _).
      by exists d, e.
    + eapply StronglySorted_Forall2;
        [|apply (select_similar_documents_sorted (session_rows w) q' (User.id u))
         |exact Hf].
      intros x y ? ? Hxy (e1 & He1 & ->) (e2 & He2 & ->).
      unfold order_by, distance_expr in Hxy. rewrite He1, He2 in Hxy.
      simpl. by apply similarity_antitone.
Qed.

End SearchProperties.

(** ** Failure of the embedder during a search *)

Section SearchFailure.
Context `{Externals}.

Lemma new_effects_app (w w' : World) (l : list Effect) :
  effects w' = effects w ++ l → new_effects w w' = l.
Proof.
  intros Hl. unfold new_effects. rewrite Hl. by rewrite drop_app_length.
Qed.

(** C7. When embedding the query text raises, [search_documents] raises the
    same exception, has sent no statement to the database and leaves the
    table as it was; no list, empty or other, stands in for the error. *)
Theorem search_fails_closed req u env w e w1 :
  generate_embedding (DocumentSearchRequest.query req) env w = (Raise e, w1) →
  search_documents req u env w = (Raise e, close_session w1) ∧
  (∀ results w', search_documents req u env w ≠ (Ok results, w')) ∧
  (∀ stmt, Execute stmt ∉ new_effects w (close_session w1)) ∧
  documents (close_session w1) = documents w.
Proof.
  intros Hg.
  assert (search_documents req u env w = (Raise e, close_session w1)) as Hs.
  { rewrite search_documents_unfold. by rewrite Hg. }
  apply generate_embedding_frame in Hg as (Hd & _ & _ & _ & _ & He).
  split_and!; [done|by rewrite Hs| |done].
  intros stmt.
  destruct He as [He|He].
  - rewrite (new_effects_app w _ [Close]).
    + intros Hin.
      repeat (apply elem_of_cons in Hin as [Hin|Hin]; [discriminate|]).
      by apply elem_of_nil in Hin.
    + unfold close_session, emit. simpl. by rewrite He.
  - rewrite (new_effects_app w _ [LoadModel "all-MiniLM-L6-v2"; Close]).
    + intros Hin.
      repeat (apply elem_of_cons in Hin as [Hin|Hin]; [discriminate|]).
      by apply elem_of_nil in Hin.
    + unfold close_session, emit. simpl. rewrite He. by rewrite <- app_assoc.
Qed.

End SearchFailure.

(** ** The indexing task *)

Section TaskFacts.
Context `{Externals}.

Lemma generate_document_embedding_unfold document_id content env w :
  generate_document_embedding document_id content env w =
  match generate_embedding content env w with
  | (Raise e, w1) => (Raise e, w1)
  | (Ok emb, w1) =>
      let stmt := UpdateEmbedding document_id emb in
      let w2 := emit (Execute stmt) w1 in
      match execute_fault env stmt with
      | Some e => (Raise e, close_session (rollback_session w2))
      | None =>
          let w3 :=
            emit Commit
              (set_transaction
                 (Some (update_embedding document_id emb (session_rows w2)))
                 w2) in
          match commit_fault env with
          | Some e => (Raise e, close_session (rollback_session w3))
          | None =>
              (Ok (success document_id),
               close_session
                 (set_transaction None (set_documents (session_rows w3) w3)))
          end
      end
  end.
Proof.
  unfold generate_document_embedding, bind at 1.
  destruct (generate_embedding content env w) as [[emb|e] w1]; [|done].
  unfold try_finally, try_except, bind, db_execute, db_commit, db_rollback,
    db_close, raise, ret.
  cbv zeta.
  destruct (execute_fault env _) as [e|]; [done|].
  by destruct (commit_fault env) as [e|].
Qed.

Lemma update_embedding_absent document_id e (table : list Document) :
  (∀ d, d ∈ table → Document.id d ≠ document_id) →
  update_embedding document_id e table = table.
Proof.
  intros Hno. unfold update_embedding.
  rewrite <- (list_fmap_id table) at 2.
  apply list_fmap_ext. intros i d Hd. simpl.
  apply list_elem_of_lookup_2 in Hd.
  by rewrite decide_False by by apply Hno.
Qed.

Lemma update_embedding_idemp document_id e (table : list Document) :
  update_embedding document_id e (update_embedding document_id e table)
  = update_embedding document_id e table.
Proof.
  unfold update_embedding. rewrite <- list_fmap_compose.
  apply list_fmap_ext. intros _ d _. simpl.
  destruct (decide (Document.id d = document_id)) as [Hid|Hid]; simpl.
  - by rewrite decide_True.
  - by rewrite decide_False.
Qed.

(** The update touches no row with another id, and only the embedding of
    the rows with this id. *)
Lemma update_embedding_lookup document_id e (table : list Document) i :
  update_embedding document_id e table !! i =
  (λ d, if decide (Document.id d = document_id)
        then Document.set_embedding (Some e) d else d) <$> table !! i.
Proof. unfold update_embedding. apply list_lookup_fmap. Qed.

Lemma update_embedding_ids document_id e (table : list Document) :
  Document.id <$> update_embedding document_id e table = Document.id <$> table.
Proof.
  unfold update_embedding. rewrite <- list_fmap_compose.
  apply list_fmap_ext. intros _ d _. simpl. by destruct (decide _).
Qed.

End TaskFacts.

Section TaskProperties.
Context `{Externals}.

Lemma generate_embedding_effects text env w r w1 :
  generate_embedding text env w = (r, w1) →
  ∃ pre, effects w1 = effects w ++ pre ∧
         (pre = [] ∨ pre = [LoadModel "all-MiniLM-L6-v2"]).
Proof.
  intros Hg. apply generate_embedding_frame in Hg as (_ & _ & _ & _ & _ & He).
  destruct He as [He|He]; [exists []|eexists]; split; eauto.
  by rewrite app_nil_r.
Qed.

Lemma session_rows_task_statement text env w emb w1 stmt :
  transaction w = None →
  generate_embedding text env w = (Ok emb, w1) →
  session_rows (emit (Execute stmt) w1) = documents w.
Proof.
  intros Ht Hg. rewrite (session_rows_search_statement _ _ _ _ _ _ Hg).
  unfold session_rows. by rewrite Ht.
Qed.

(** C4. When no row has the id the task was enqueued with, the UPDATE changes
    nothing: whatever the vector, the table is the same after it; the task
    leaves the committed table as it was, so the id stays absent and every
    other document keeps its state; and the missing row is no cause of
    error, as the task returns its success result whenever the embedding
    was computed and the database accepted the statement and the commit. *)
Theorem indexing_deleted_document_is_noop document_id content env w :
  transaction w = None →
  (∀ d, d ∈ documents w → Document.id d ≠ document_id) →
  (∀ e, update_embedding document_id e (documents w) = documents w) ∧
  ∀ r w', generate_document_embedding document_id content env w = (r, w') →
    documents w' = documents w ∧
    (∀ d, d ∈ documents w' → Document.id d ≠ document_id) ∧
    (∀ emb w1, generate_embedding content env w = (Ok emb, w1) →
       execute_fault env (UpdateEmbedding document_id emb) = None →
       commit_fault env = None →
       r = Ok (success document_id)).
Proof.
  intros Ht Hno. split; [intros e; by apply update_embedding_absent|].
  intros r w'. rewrite generate_document_embedding_unfold.
  destruct (generate_embedding content env w) as [[emb|e] w1] eqn:Hg.
  - pose proof (generate_embedding_frame _ _ _ _ _ Hg) as (Hd & _).
    cbv zeta.
    destruct (execute_fault env _) as [e|] eqn:Hx.
    + intros ?; simplify_eq. simpl. rewrite Hd. split_and!; [done..|].
      intros ?? ?; simplify_eq. congruence.
    + destruct (commit_fault env) as [e|] eqn:Hc.
      * intros ?; simplify_eq. simpl. rewrite Hd. split_and!; [done..|].
        intros; congruence.
      * intros ?; simplify_eq. simpl.
        rewrite (session_rows_task_statement _ _ _ _ _ _ Ht Hg).
        rewrite (update_embedding_absent _ _ _ Hno). by split_and!.
  - intros ?; simplify_eq.
    pose proof (generate_embedding_frame _ _ _ _ _ Hg) as (Hd & _).
    rewrite Hd. split_and!; [done..|]. intros; congruence.
Qed.

Lemma generate_embedding_cached text env w model :
  model_cache (process env) w = Some model →
  generate_embedding text env w = (encode model text, w).
Proof. intros Hm. rewrite generate_embedding_unfold. by rewrite Hm. Qed.

(** After a call that returned, the model is in the cache of the process. *)
Lemma generate_embedding_ok_cached text env w emb w1 :
  generate_embedding text env w = (Ok emb, w1) →
  ∃ model, model_cache (process env) w1 = Some model ∧
           encode model text = Ok emb.
Proof.
  rewrite generate_embedding_unfold.
  destruct (model_cache (process env) w) as [m|] eqn:Hm.
  - intros ?; simplify_eq. eauto.
  - destruct (load_model env) as [m|]; [|done]. intros ?; simplify_eq.
    exists m. split; [|done]. by destruct (process env).
Qed.

(** What a run of the task does to the committed table. *)
Lemma task_run_documents document_id content env w r w' :
  transaction w = None →
  generate_document_embedding document_id content env w = (r, w') →
  (∃ e, r = Raise e ∧ documents w' = documents w) ∨
  (∃ emb w1,
     generate_embedding content env w = (Ok emb, w1) ∧
     r = Ok (success document_id) ∧
     documents w' = update_embedding document_id emb (documents w) ∧
     transaction w' = None ∧
     ∀ p, model_cache p w' = model_cache p w1).
Proof.
  intros Ht. rewrite generate_document_embedding_unfold.
  destruct (generate_embedding content env w) as [[emb|e] w1] eqn:Hg.
  - pose proof (generate_embedding_frame _ _ _ _ _ Hg) as (Hd & _).
    cbv zeta.
    destruct (execute_fault env _) as [e|].
    { intros ?; simplify_eq. left. eexists. split; [done|]. by simpl. }
    destruct (commit_fault env) as [e|].
    { intros ?; simplify_eq. left. eexists. split; [done|]. by simpl. }
    intros ?; simplify_eq. right. exists emb, w1. split_and!; [done..| |done|].
    + simpl. by rewrite (session_rows_task_statement _ _ _ _ _ _ Ht Hg).
    + by intros [].
  - intros ?; simplify_eq. left. exists e. split; [done|].
    by apply generate_embedding_frame in Hg as (Hd & _).
Qed.

(** C5. The UPDATE of the indexing task is idempotent: applied twice for the
    same id and vector it leaves the table as after one application; and a
    second run of the task, after a run that succeeded, leaves the committed
    table as that run left it. *)
Theorem embedding_write_idempotent
    (document_id : Z) (e : vector) (table : list Document) :
  update_embedding document_id e (update_embedding document_id e table)
    = update_embedding document_id e table ∧
  (∀ content env1 env2 w w1 r2 w2,
     transaction w = None →
     process env2 = process env1 →
     generate_document_embedding document_id content env1 w
       = (Ok (success document_id), w1) →
     generate_document_embedding document_id content env2 w1 = (r2, w2) →
     documents w2 = documents w1).
Proof.
  split; [apply update_embedding_idemp|].
  intros content env1 env2 w w1 r2 w2 Ht Hp Hrun1 Hrun2.
  apply task_run_documents in Hrun1 as [(? & ? & _)|Hrun1]; [done| |done].
  destruct Hrun1 as (emb & w0 & Hg & _ & Hd1 & Ht1 & Hcache).
  apply generate_embedding_ok_cached in Hg as (m & Hm & Henc).
  rewrite <- Hcache, <- Hp in Hm.
  apply task_run_documents in Hrun2 as [(? & _ & Hd2)|Hrun2]; [done| |done].
  destruct Hrun2 as (emb2 & w3 & Hg2 & _ & Hd2 & _).
  rewrite (generate_embedding_cached _ _ _ _ Hm), Henc in Hg2.
  simplify_eq. rewrite Hd2, Hd1. apply update_embedding_idemp.
Qed.

End TaskProperties.

Section TaskOutcomes.
Context `{Externals}.


End TaskOutcomes.

(** ** The embedder *)

Section Embedder.
Context `{Externals}.

(** The dimension of the model's output. *)
Variable D : nat.
Hypothesis model_dimension :
  ∀ model text v, encode model text = Ok v → length v = D.

(** C6. With a model whose output has [D] components: on a text the model
    accepts, [generate_embedding] returns as soon as the model is cached or
    can be loaded; what it returns has exactly [D] components; and a second
    call on the same text, in the same process, returns the same vector,
    whatever the surroundings then are. *)
Theorem generate_embedding_dimension_and_determinism text env w :
  (∀ model v0,
     model_cache (process env) w = Some model ∨
     (model_cache (process env) w = None ∧ load_model env = Ok model) →
     encode model text = Ok v0 →
     ∃ w1, generate_embedding text env w = (Ok v0, w1)) ∧
  (∀ v w1,
     generate_embedding text env w = (Ok v, w1) →
     length v = D ∧
     ∀ env2, process env2 = process env →
             generate_embedding text env2 w1 = (Ok v, w1)).
Proof using model_dimension.
  split.
  - intros model v0 Hmodel Henc. rewrite generate_embedding_unfold.
    destruct Hmodel as [Hm|[Hm Hl]]; rewrite Hm; [|rewrite Hl];
      rewrite Henc; eauto.
  - intros v w1 Hg.
    apply generate_embedding_ok_cached in Hg as (model & Hm & Henc).
    split; [by eapply model_dimension|].
    intros env2 Hp. rewrite <- Hp in Hm.
    by rewrite (generate_embedding_cached _ _ _ _ Hm), Henc.
Qed.

End Embedder.

(** ** Validation of the search request *)

Section Validation.
Context `{Externals}.

Lemma validate_search_request_error body e :
  validate_search_request body = Raise e →
  ∃ loc msg, e = RequestValidationError loc msg.
Proof.
  unfold validate_search_request.
  destruct body as [| | | | |fields]; try by (intros ?; simplify_eq; eauto).
  destruct (json_get "query" fields) as [[]|]; intros ?; simplify_eq; eauto.
Qed.

Lemma validate_search_request_ok body s :
  validate_search_request body = Ok (DocumentSearchRequest.mk s) ↔
  ∃ flds, body = JObject flds ∧ json_get "query" flds = Some (JString s).
Proof.
  unfold validate_search_request. split.
  - destruct body as [| | | | |flds]; try done.
    destruct (json_get "query" flds) as [[| | |s'| |]|] eqn:Hj; try done.
    intros ?; simplify_eq. by exists flds.
  - intros (flds & -> & Hj). by rewrite Hj.
Qed.

(** C8, as the code has it.  A body whose query is the empty string passes
    validation, and the request is processed as any search, with the empty
    text as query.  Validation accepts exactly the bodies that are an object
    with a string under ["query"], whatever the string, and the request is
    then processed with that string; it raises exactly on the other bodies,
    and what it raises is a validation error, which is neither an HTTP error
    such as not-found nor an error of the model or of the database; the
    model is then not called and no statement is sent: the request only
    closes its session. *)
Theorem empty_query_is_searched fields (u : User.t) (env : Env) (w : World) :
  json_get "query" fields = Some (JString "") →
  validate_search_request (JObject fields) = Ok (DocumentSearchRequest.mk "") ∧
  post_documents_search (JObject fields) u env w
    = search_documents (DocumentSearchRequest.mk "") u env w ∧
  (∀ body s,
     validate_search_request body = Ok (DocumentSearchRequest.mk s) ↔
     ∃ flds, body = JObject flds ∧ json_get "query" flds = Some (JString s)) ∧
  (∀ flds s,
     json_get "query" flds = Some (JString s) →
     post_documents_search (JObject flds) u env w
       = search_documents (DocumentSearchRequest.mk s) u env w) ∧
  (∀ body,
     (∃ e, validate_search_request body = Raise e) ↔
     ¬ ∃ flds s, body = JObject flds ∧
                 json_get "query" flds = Some (JString s)) ∧
  (∀ body e,
     validate_search_request body = Raise e →
     (∃ loc msg, e = RequestValidationError loc msg) ∧
     (∀ code detail, e ≠ HTTPException code detail) ∧
     (∀ m, e ≠ ModelError m) ∧
     (∀ m, e ≠ DatabaseError m) ∧
     ∃ w', post_documents_search body u env w = (Raise e, w') ∧
           documents w' = documents w ∧
           ∀ eff, eff ∈ new_effects w w' → eff = Close).
Proof.
  intros Hq.
  assert (∀ flds s,
            json_get "query" flds = Some (JString s) →
            post_documents_search (JObject flds) u env w
              = search_documents (DocumentSearchRequest.mk s) u env w)
    as Hpost.
  { intros flds s Hj. unfold post_documents_search.
    rewrite (proj2 (validate_search_request_ok (JObject flds) s)); [done|].
    by exists flds. }
  split_and!.
  - apply validate_search_request_ok. by exists fields.
  - by apply Hpost.
  - apply validate_search_request_ok.
  - exact Hpost.
  - intros body. split.
    + intros [e Hv] (flds & s & -> & Hj).
      rewrite (proj2 (validate_search_request_ok (JObject flds) s)) in Hv;
        [done|by exists flds].
    + intros Hno.
      destruct (validate_search_request body) as [[s]|e] eqn:Hv; [|by exists e].
      exfalso. apply Hno.
      apply validate_search_request_ok in Hv as (flds & -> & Hj).
      by exists flds, s.
  - intros body e Hv.
    destruct (validate_search_request_error _ _ Hv) as (loc & msg & ->).
    split_and!; [by exists loc, msg|done..|].
    exists (close_session w). split_and!.
    + unfold post_documents_search. by rewrite Hv.
    + done.
    + intros eff. rewrite (new_effects_app w _ [Close]) by done.
      by intros ?%list_elem_of_singleton.
Qed.

End Validation.

(** ** The text of the query vector *)

Lemma unsnoc_snoc (s : string) (c : ascii) :
  unsnoc (s +:+ String c EmptyString) = Some (s, c).
Proof. induction s as [|a s IH]; simpl; [done|]. by rewrite IH. Qed.

Lemma split_on_nonempty sep s : split_on sep s ≠ [].
Proof.
  destruct s as [|c s]; simpl; [done|].
  destruct (Ascii.eqb c sep); [done|]. by destruct (split_on sep s).
Qed.

Lemma has_char_cons c a s :
  has_char c (String a s) ↔ c = a ∨ has_char c s.
Proof. unfold has_char. simpl. apply elem_of_cons. Qed.

Lemma split_on_no_sep sep s : ¬ has_char sep s → split_on sep s = [s].
Proof.
  induction s as [|c s IH]; simpl; [done|].
  rewrite has_char_cons. intros Hn.
  destruct (Ascii.eqb_spec c sep) as [->|_]; [tauto|].
  rewrite IH by tauto. done.
Qed.

Lemma split_on_app sep s rest :
  ¬ has_char sep s →
  split_on sep (s +:+ String sep rest) = s :: split_on sep rest.
Proof.
  induction s as [|c s IH]; simpl.
  - intros _. by rewrite Ascii.eqb_refl.
  - rewrite has_char_cons. intros Hn.
    destruct (Ascii.eqb_spec c sep) as [->|_]; [tauto|].
    rewrite IH by tauto. done.
Qed.

Lemma split_on_concat sep (l : list string) :
  l ≠ [] → Forall (λ s, ¬ has_char sep s) l →
  split_on sep (String.concat (String sep EmptyString) l) = l.
Proof.
  induction l as [|s l IH]; [done|]. intros _ Hl.
  apply Forall_cons in Hl as [Hs Hl].
  destruct l as [|s' l].
  - by apply split_on_no_sep.
  - change (String.concat (String sep EmptyString) (s :: s' :: l))
      with (s +:+ String sep (String.concat (String sep EmptyString) (s' :: l))).
    rewrite split_on_app by done. f_equal. by apply IH.
Qed.

Section QueryText.
Context `{Externals}.

(** C9. The text bound to the vector parameter of the similarity query is
    a bracketed, comma-separated list whose elements are the texts of the
    components of the query vector, in order, provided [str] of a float is
    not empty and has no comma; it is this text that [search_documents]
    sends, and the database casts it to a vector when it runs the query. *)
Theorem embedding_str_lists_components (q : vector) :
  (∀ x, x ∈ q → float_str x ≠ "" ∧ ¬ has_char "," (float_str x)) →
  embedding_str q = "[" +:+ String.concat "," (float_str <$> q) +:+ "]" ∧
  vector_literal_elements (embedding_str q) = Some (float_str <$> q) ∧
  (∀ req u env w w1 uid rows,
     generate_embedding (DocumentSearchRequest.query req) env w = (Ok q, w1) →
     Execute (SelectSimilar (embedding_str q) (User.id u))
       ∈ new_effects w (search_documents req u env w).2 ∧
     run_select_similar (embedding_str q) uid rows =
       match vector_in (embedding_str q) with
       | Ok q' => Ok (select_similar rows q' uid, rows)
       | Raise e => Raise e
       end).
Proof.
  intros Hstr. split_and!; [done| |].
  - unfold embedding_str, vector_literal_elements.
    change ("[" +:+ ?s) with (String "["%char s). cbv iota.
    rewrite unsnoc_snoc.
    change (Ascii.eqb "[" "[" && Ascii.eqb "]" "]") with true. cbv iota.
    destruct q as [|x q']; [done|].
    destruct (String.concat "," (float_str <$> x :: q')) as [|c inner] eqn:Hc.
    + exfalso. destruct (Hstr x) as [Hne _]; [by left|].
      rewrite fmap_cons in Hc. simpl in Hc.
      destruct (float_str <$> q'); [done|].
      by destruct (float_str x).
    + rewrite <- Hc. f_equal. apply split_on_concat; [done|].
      apply Forall_fmap, Forall_forall. intros y Hy. by apply Hstr.
  - intros req u env w w1 uid rows Hg. split; [|done].
    rewrite search_documents_unfold, Hg. cbv zeta.
    pose proof (generate_embedding_effects _ _ _ _ _ Hg) as (pre & He & _).
    destruct (execute_fault env _); [|destruct (vector_in _)];
      erewrite new_effects_app
        by (simpl; rewrite He, <- !app_assoc; reflexivity);
      rewrite !elem_of_app, !list_elem_of_singleton; auto 10.
Qed.

End QueryText.

(** ** The system: creation, indexing and search over time *)

Section SystemFacts.
Context `{Externals}.

Lemma create_document_world data u env w r w' :
  transaction w = None →
  create_document data u env w = (r, w') →
  let pk := documents_id_seq w + 1 in
  let row :=
    Document.mk pk (DocumentCreate.title data) (DocumentCreate.content data)
      (User.id u) None (now env) in
  transaction w' = None ∧ celery_results w' = celery_results w ∧
  ((∃ e, r = Raise e ∧ documents w' = documents w ∧
         celery_queue w' = celery_queue w ∧
         (documents_id_seq w' = documents_id_seq w ∨ documents_id_seq w' = pk)) ∨
   (documents w' = documents w ++ [row] ∧ documents_id_seq w' = pk ∧
    ((∃ e, r = Raise e ∧ celery_queue w' = celery_queue w) ∨
     (∃ resp, r = Ok resp ∧ DocumentResponse.id resp = pk ∧
        celery_queue w' = celery_queue w ++ [(pk, DocumentCreate.content data)])))).
Proof.
  intros Ht. unfold create_document, get_db, try_finally, bind,
    db_flush_insert, db_commit, db_execute, log_user_action, ret, db_close.
  cbv zeta.
  destruct (execute_fault env (InsertDocument _ _ _)) as [e|].
  { intros ?; simplify_eq. simpl. split_and!; [done..|]. left. eauto 10. }
  destruct (commit_fault env) as [e|].
  { intros ?; simplify_eq. simpl. split_and!; [done..|]. left. eauto 10. }
  simpl (Document.id _).
  destruct (execute_fault env (RefreshDocument _)) as [e|].
  { intros ?; simplify_eq. unfold session_rows. simpl. rewrite Ht. simpl.
    split_and!; [done..|]. right. split_and!; [done..|]. left. eauto. }
  destruct (select_by_pk _ _) as [|d rest] eqn:Hsel.
  { intros ?; simplify_eq. unfold session_rows. simpl. rewrite Ht. simpl.
    split_and!; [done..|]. right. split_and!; [done..|]. left. eauto. }
  destruct (delay_fault env) as [e|].
  { intros ?; simplify_eq. unfold session_rows. simpl. rewrite Ht. simpl.
    split_and!; [done..|]. right. split_and!; [done..|]. left. eauto. }
  intros ?; simplify_eq. unfold session_rows. simpl. rewrite Ht. simpl.
  split_and!; [done..|]. right. split_and!; [done..|]. right.
  assert (Document.id d = documents_id_seq w + 1) as Hid.
  { assert (d ∈ d :: rest) as Hd by left. rewrite <- Hsel in Hd.
    unfold select_by_pk in Hd. apply list_elem_of_filter in Hd as [Hd _].
    exact Hd. }
  eexists. split_and!; [done| |]; simpl; by rewrite Hid.
Qed.

Lemma search_documents_world req u env w r w' :
  transaction w = None →
  search_documents req u env w = (r, w') →
  transaction w' = None ∧ documents w' = documents w ∧
  documents_id_seq w' = documents_id_seq w ∧
  celery_queue w' = celery_queue w ∧ celery_results w' = celery_results w.
Proof.
  intros Ht. rewrite search_documents_unfold.
  destruct (generate_embedding _ env w) as [[emb|e] w1] eqn:Hg;
    apply generate_embedding_frame in Hg as (Hd & _ & Hs & Hq & Hr & _).
  - cbv zeta. destruct (execute_fault env _); [|destruct (vector_in _)];
      intros ?; simplify_eq; simpl; by split_and!.
  - intros ?; simplify_eq. simpl. by split_and!.
Qed.

Lemma post_documents_search_world body u env w r w' :
  transaction w = None →
  post_documents_search body u env w = (r, w') →
  transaction w' = None ∧ documents w' = documents w ∧
  documents_id_seq w' = documents_id_seq w ∧
  celery_queue w' = celery_queue w ∧ celery_results w' = celery_results w.
Proof.
  intros Ht. unfold post_documents_search.
  destruct (validate_search_request body) as [req|e].
  - by apply search_documents_world.
  - unfold get_db, try_finally, raise, db_close.
    intros ?; simplify_eq. by split_and!.
Qed.

Lemma delete_document_world document_id u env w r w' :
  transaction w = None →
  delete_document document_id u env w = (r, w') →
  transaction w' = None ∧
  documents_id_seq w' = documents_id_seq w ∧
  celery_queue w' = celery_queue w ∧ celery_results w' = celery_results w ∧
  (documents w' = documents w ∨
   documents w' = delete_where_id document_id (documents w)).
Proof.
  intros Ht. unfold delete_document, get_db, try_finally, bind, db_execute,
    db_commit, log_user_action, ret, raise, lift, db_close.
  cbv zeta.
  destruct (execute_fault env (SelectDocument _ _)) as [e|].
  { intros ?; simplify_eq. simpl. split_and!; auto. }
  destruct (scalar_one_or_none _) as [[d|]|e].
  - destruct (execute_fault env (DeleteDocument _)) as [e|].
    { intros ?; simplify_eq. simpl. split_and!; auto. }
    destruct (commit_fault env) as [e|].
    { intros ?; simplify_eq. simpl. split_and!; auto. }
    intros ?; simplify_eq. unfold session_rows. simpl. rewrite Ht. simpl.
    split_and!; auto.
  - intros ?; simplify_eq. simpl. split_and!; auto.
  - intros ?; simplify_eq. simpl. split_and!; auto.
Qed.

End SystemFacts.

Lemma NoDup_fmap_filter {A B} (f : A → B) (P : A → Prop)
    `{∀ x, Decision (P x)} (l : list A) :
  NoDup (f <$> l) → NoDup (f <$> filter P l).
Proof.
  induction l as [|a l IH]; [done|].
  rewrite fmap_cons, NoDup_cons. intros [Ha Hl].
  rewrite filter_cons. case_decide; [|by apply IH].
  rewrite fmap_cons, NoDup_cons. split; [|by apply IH].
  intros Hin. apply Ha.
  apply list_elem_of_fmap in Hin as (a' & -> & Hin).
  apply list_elem_of_filter in Hin as [_ Hin].
  by apply list_elem_of_fmap_2.
Qed.

Section Invariant.
Context `{Externals}.

Lemma task_run_frame document_id content env w r w' :
  transaction w = None →
  generate_document_embedding document_id content env w = (r, w') →
  transaction w' = None ∧ documents_id_seq w' = documents_id_seq w ∧
  celery_queue w' = celery_queue w ∧ celery_results w' = celery_results w.
Proof.
  intros Ht. rewrite generate_document_embedding_unfold.
  destruct (generate_embedding content env w) as [[emb|e] w1] eqn:Hg;
    apply generate_embedding_frame in Hg as (_ & Ht1 & Hs & Hq & Hr & _).
  - cbv zeta. destruct (execute_fault env _); [|destruct (commit_fault env)];
      intros ?; simplify_eq; simpl; by split_and!.
  - intros ?; simplify_eq. split_and!; congruence.
Qed.

Lemma worker_run_unfold n (ack : bool) env w document_id content :
  celery_queue w !! n = Some (document_id, content) →
  ∃ r w1,
    generate_document_embedding document_id content (in_process Worker env)
      (if ack then set_celery_queue (delete n (celery_queue w)) w else w)
      = (r, w1) ∧
    worker_run n ack env w = set_celery_results (celery_results w1 ++ [r]) w1.
Proof.
  intros Hq. unfold worker_run. rewrite Hq.
  destruct (generate_document_embedding _ _ _ _) as [r w1]. by exists r, w1.
Qed.

Lemma elem_of_update_embedding document_id e (table : list Document) d' :
  d' ∈ update_embedding document_id e table →
  ∃ d, d ∈ table ∧
       ((Document.id d = document_id ∧ d' = Document.set_embedding (Some e) d) ∨
        (Document.id d ≠ document_id ∧ d' = d)).
Proof.
  unfold update_embedding. intros Hd'.
  apply list_elem_of_fmap in Hd' as (d & -> & Hd). exists d. split; [done|].
  destruct (decide (Document.id d = document_id)); auto.
Qed.

Lemma consistent_initial : consistent initial_world.
Proof.
  split; simpl; try done.
  - constructor.
  - intros d Hd. by apply elem_of_nil in Hd.
  - intros i c Hi. by apply elem_of_nil in Hi.
  - intros i Hi. by apply elem_of_nil in Hi.
  - intros d Hd. by apply elem_of_nil in Hd.
Qed.

Lemma consistent_create u data env w :
  consistent w → consistent (create_document data u env w).2.
Proof.
  intros [Ht Hnd Hids Hq Hc Hix].
  destruct (create_document data u env w) as [r w'] eqn:Hrun. simpl.
  apply create_document_world in Hrun as (Ht' & Hr' & Hcases); [|done].
  unfold task_completed in *.
  destruct Hcases as [(e & _ & Hd & Hq' & Hs)|(Hd & Hs & Hq')].
  - split; unfold task_completed; rewrite ?Hd, ?Hq', ?Hr'; try done.
    + intros d Hin. specialize (Hids d Hin). destruct Hs as [-> | ->]; lia.
    + intros i c Hin. specialize (Hq i c Hin). destruct Hs as [-> | ->]; lia.
    + intros i Hin. specialize (Hc i Hin). destruct Hs as [-> | ->]; lia.
  - assert (∀ i c, (i, c) ∈ celery_queue w' → i ≤ documents_id_seq w')
      as Hq''.
    { intros i c Hin. rewrite Hs.
      destruct Hq' as [(e & _ & Hq2)|(resp & _ & _ & Hq2)]; rewrite Hq2 in Hin.
      - specialize (Hq i c Hin). lia.
      - apply elem_of_app in Hin as [Hin|Hin]; [specialize (Hq i c Hin); lia|].
        apply list_elem_of_singleton in Hin. simplify_eq. lia. }
    split; unfold task_completed; rewrite ?Hd, ?Hr'; try done.
    + rewrite fmap_app. apply NoDup_app. split_and!; [done| |].
      * intros i Hi Hi'. simpl in Hi'. apply list_elem_of_singleton in Hi'.
        apply list_elem_of_fmap in Hi as (d & -> & Hin).
        specialize (Hids d Hin). lia.
      * simpl. apply NoDup_singleton.
    + intros d Hin. rewrite Hs.
      apply elem_of_app in Hin as [Hin|Hin]; [specialize (Hids d Hin); lia|].
      apply list_elem_of_singleton in Hin. subst d. simpl. lia.
    + intros i Hin. specialize (Hc i Hin). lia.
    + intros d Hin Hsome.
      apply elem_of_app in Hin as [Hin|Hin]; [by apply Hix|].
      apply list_elem_of_singleton in Hin. subst d. simpl in Hsome.
      by destruct Hsome.
Qed.

Lemma consistent_search u body env w :
  consistent w → consistent (post_documents_search body u env w).2.
Proof.
  intros [Ht Hnd Hids Hq Hc Hix].
  destruct (post_documents_search body u env w) as [r w'] eqn:Hrun. simpl.
  apply post_documents_search_world in Hrun as (Ht' & Hd & Hs & Hq' & Hr');
    [|done].
  split; unfold task_completed in *; rewrite ?Hd, ?Hs, ?Hq', ?Hr'; done.
Qed.

Lemma consistent_delete u document_id env w :
  consistent w → consistent (delete_document document_id u env w).2.
Proof.
  intros [Ht Hnd Hids Hq Hc Hix].
  destruct (delete_document document_id u env w) as [r w'] eqn:Hrun. simpl.
  apply delete_document_world in Hrun as (Ht' & Hs & Hq' & Hr' & Hd); [|done].
  destruct Hd as [Hd|Hd].
  - split; unfold task_completed in *; rewrite ?Hd, ?Hs, ?Hq', ?Hr'; done.
  - assert (∀ d, d ∈ documents w' → d ∈ documents w) as Hsub.
    { intros d. rewrite Hd. unfold delete_where_id.
      rewrite list_elem_of_filter. tauto. }
    split; unfold task_completed in *; rewrite ?Hs, ?Hq', ?Hr'; auto.
    rewrite Hd. unfold delete_where_id.
    by apply NoDup_fmap_filter.
Qed.

Lemma consistent_worker n (ack : bool) env w :
  consistent w → consistent (worker_run n ack env w).
Proof.
  intros Hw. destruct (celery_queue w !! n) as [[i c]|] eqn:Hn;
    [|unfold worker_run; by rewrite Hn].
  destruct (worker_run_unfold n ack env w i c Hn) as (r & w1 & Hrun & ->).
  destruct Hw as [Ht Hnd Hids Hq Hc Hix].
  set (w0 := if ack then set_celery_queue (delete n (celery_queue w)) w else w)
    in Hrun.
  assert (transaction w0 = None ∧ documents w0 = documents w ∧
          documents_id_seq w0 = documents_id_seq w ∧
          celery_results w0 = celery_results w ∧
          ∀ x, x ∈ celery_queue w0 → x ∈ celery_queue w)
    as (Ht0 & Hd0 & Hs0 & Hr0 & Hq0).
  { subst w0. destruct ack; simpl; split_and!; try done.
    intros x Hx. eapply elem_of_submseteq; [exact Hx|].
    apply sublist_submseteq, sublist_delete. }
  assert (i ≤ documents_id_seq w) as Hi.
  { apply (Hq i c). by eapply list_elem_of_lookup_2. }
  pose proof (task_run_frame _ _ _ _ _ _ Ht0 Hrun) as (Ht1 & Hs1 & Hq1 & Hr1).
  pose proof (task_run_documents _ _ _ _ _ _ Ht0 Hrun) as Hdocs.
  assert (∀ j, task_completed j w →
               Ok (success j) ∈ celery_results w1 ++ [r]) as Hgrow.
  { intros j Hj. unfold task_completed in Hj.
    apply elem_of_app. left. by rewrite Hr1, Hr0. }
  destruct Hdocs as [(e & -> & Hd1)|(emb & w2 & _ & -> & Hd1 & _)].
  - split; unfold task_completed; simpl; rewrite ?Hd1, ?Hd0, ?Hs1, ?Hs0;
      try done.
    + intros j c' Hin. rewrite Hq1 in Hin.
      apply Hq0 in Hin. by apply (Hq j c').
    + intros j Hin. apply elem_of_app in Hin as [Hin|Hin].
      * apply Hc. unfold task_completed. by rewrite <- Hr0, <- Hr1.
      * by apply list_elem_of_singleton in Hin.
    + intros d Hd Hsome. by apply Hgrow, Hix.
  - split; unfold task_completed; simpl; rewrite ?Hd1, ?Hd0, ?Hs1, ?Hs0;
      try done.
    + by rewrite update_embedding_ids.
    + intros d' Hd'. apply elem_of_update_embedding in Hd' as (d & Hd & Hcase).
      specialize (Hids d Hd).
      destruct Hcase as [[_ ->]|[_ ->]]; simpl; lia.
    + intros j c' Hin. rewrite Hq1 in Hin.
      apply Hq0 in Hin. by apply (Hq j c').
    + intros j Hin. apply elem_of_app in Hin as [Hin|Hin].
      * apply Hc. unfold task_completed. by rewrite <- Hr0, <- Hr1.
      * apply list_elem_of_singleton in Hin. by simplify_eq.
    + intros d' Hd' Hsome.
      apply elem_of_update_embedding in Hd' as (d & Hd & Hcase).
      destruct Hcase as [[Hid ->]|[_ ->]].
      * simpl. rewrite Hid. apply elem_of_app. right.
        by apply list_elem_of_singleton.
      * by apply Hgrow, Hix.
Qed.

Lemma consistent_step ev env w : consistent w → consistent (step ev env w).
Proof.
  destruct ev; simpl.
  - apply consistent_create.
  - apply consistent_search.
  - apply consistent_delete.
  - apply consistent_worker.
Qed.

Lemma consistent_run evs w : consistent w → consistent (run evs w).
Proof.
  revert w. induction evs as [|[ev env] evs IH]; intros w Hw; simpl; [done|].
  by apply IH, consistent_step.
Qed.

Lemma reachable_consistent w : reachable w → consistent w.
Proof. intros [evs <-]. apply consistent_run, consistent_initial. Qed.

End Invariant.

Section EventualConsistency.
Context `{Externals}.




End EventualConsistency.

(** * The model at work *)

Section Examples.
#[local] Existing Instance Demo.externals.

(** The scenario of the specification, run on the small instance. *)
Example scenario_created_not_searchable :
  Document.embedding <$> documents Demo.created = [None] ∧
  celery_queue Demo.created
    = [(1, "Standard adult aspirin dose is 81-325mg daily")] ∧
  (search_documents Demo.question Demo.alice Demo.env Demo.created).1 = Ok [].
Proof. split_and!; vm_compute; reflexivity. Qed.

Example scenario_indexed_searchable :
  Document.embedding <$> documents Demo.indexed = [Some [45; 1]] ∧
  celery_results Demo.indexed = [Ok (success 1)] ∧
  Demo.response_ids
    (search_documents Demo.question Demo.alice Demo.env Demo.indexed)
    = Ok [1] ∧
  (search_documents Demo.question Demo.bob Demo.env Demo.indexed).1 = Ok [].
Proof. split_and!; vm_compute; reflexivity. Qed.

Example search_demo_table :
  SimilarityRow.id <$> select_similar Demo.table [2; 1] 1 = [5; 6; 1].
Proof. reflexivity. Qed.

Example embedding_str_demo : embedding_str [3; -4; 12] = "[3,-4,12]".
Proof. reflexivity. Qed.

Example update_embedding_demo :
  Document.embedding <$> update_embedding 4 [9; 9] Demo.table
    = [Some [4; 1]; Some [2; 1]; Some [8; 1]; Some [9; 9]; Some [2; 1];
       Some [3; 1]] ∧
  update_embedding 99 [9; 9] Demo.table = Demo.table.
Proof. split; reflexivity. Qed.


(** C4 on the small table: no row has id 99, and a run of the task for that
    id leaves the table as it is and succeeds. *)
Lemma indexing_deleted_document_is_noop_witness :
  transaction Demo.world = None ∧
  (∀ d, d ∈ documents Demo.world → Document.id d ≠ 99) ∧
  (∀ r w',
     generate_document_embedding 99 "aaaa" Demo.worker_env Demo.world = (r, w') →
     documents w' = documents Demo.world ∧
     (∀ d, d ∈ documents w' → Document.id d ≠ 99) ∧
     (∀ emb w1,
        generate_embedding "aaaa" Demo.worker_env Demo.world = (Ok emb, w1) →
        execute_fault Demo.worker_env (UpdateEmbedding 99 emb) = None →
        commit_fault Demo.worker_env = None →
        r = Ok (success 99))).
Proof.
  assert (∀ d, d ∈ documents Demo.world → Document.id d ≠ 99) as Habsent.
  { intros d Hd.
    repeat (apply elem_of_cons in Hd as [->|Hd]; [done|]).
    by apply elem_of_nil in Hd. }
  split_and!; [reflexivity|exact Habsent|].
  exact (proj2 (indexing_deleted_document_is_noop 99 "aaaa" Demo.worker_env
                  Demo.world eq_refl Habsent)).
Defined.

(** C6 on the small instance, whose model has two components. *)
Lemma generate_embedding_dimension_and_determinism_witness :
  (∀ (model : SentenceTransformer) text v,
     encode model text = Ok v → length v = 2%nat) ∧
  (∀ v w1,
     generate_embedding "hello" Demo.env Demo.world = (Ok v, w1) →
     length v = 2%nat ∧
     ∀ env2, process env2 = process Demo.env →
             generate_embedding "hello" env2 w1 = (Ok v, w1)).
Proof.
  assert (∀ (model : SentenceTransformer) text v,
            encode model text = Ok v → length v = 2%nat) as Hdim.
  { intros model text v Henc. simpl in Henc. by simplify_eq. }
  split; [exact Hdim|].
  exact (proj2 (generate_embedding_dimension_and_determinism 2 Hdim "hello"
                  Demo.env Demo.world)).
Defined.

(** C7 on the small instance, with a model that does not load. *)
Lemma search_fails_closed_witness :
  generate_embedding (DocumentSearchRequest.query Demo.question)
    Demo.web_no_model Demo.world
    = (Raise (ModelError "cannot load"),
       emit (LoadModel "all-MiniLM-L6-v2") Demo.world) ∧
  search_documents Demo.question Demo.alice Demo.web_no_model Demo.world
    = (Raise (ModelError "cannot load"),
       close_session (emit (LoadModel "all-MiniLM-L6-v2") Demo.world)).
Proof.
  split; [reflexivity|].
  exact (proj1 (search_fails_closed Demo.question Demo.alice Demo.web_no_model
                  Demo.world _ _ eq_refl)).
Defined.

(** C8: the claim fails.  A request with the empty query is answered with
    the three nearest documents of the caller, not with a validation error. *)
Lemma empty_query_is_not_rejected :
  Demo.response_ids
    (post_documents_search (JObject [("query", JString "")]) Demo.alice
       Demo.env Demo.world)
    = Ok [5; 6; 1] ∧
  ¬ ∃ loc msg w',
      post_documents_search (JObject [("query", JString "")]) Demo.alice
        Demo.env Demo.world = (Raise (RequestValidationError loc msg), w').
Proof.
  split.
  - vm_compute. reflexivity.
  - intros (loc & msg & w' & Hraise).
    apply (f_equal Demo.response_ids) in Hraise.
    vm_compute in Hraise. discriminate.
Qed.

(** C8, amended, on a body with the empty query. *)
Lemma empty_query_is_searched_witness :
  json_get "query" [("query", JString "")] = Some (JString "") ∧
  validate_search_request (JObject [("query", JString "")])
    = Ok (DocumentSearchRequest.mk "") ∧
  post_documents_search (JObject [("query", JString "")]) Demo.alice Demo.env
    Demo.world
    = search_documents (DocumentSearchRequest.mk "") Demo.alice Demo.env
        Demo.world.
Proof.
  split; [reflexivity|].
  pose proof (empty_query_is_searched [("query", JString "")] Demo.alice
                Demo.env Demo.world eq_refl) as (Hv & Hs & _).
  exact (conj Hv Hs).
Defined.

(** C9 on the vector (3, -4, 12). *)
Lemma embedding_str_lists_components_witness :
  (∀ x : Z, x ∈ [3; -4; 12] →
     float_str x ≠ "" ∧ ¬ has_char "," (float_str x)) ∧
  embedding_str [3; -4; 12] = "[3,-4,12]" ∧
  vector_literal_elements (embedding_str [3; -4; 12]) = Some ["3"; "-4"; "12"].
Proof.
  assert (∀ x : Z, x ∈ [3; -4; 12] →
            float_str x ≠ "" ∧ ¬ has_char "," (float_str x)) as Hstr.
  { intros x Hx.
    repeat (apply elem_of_cons in Hx as [->|Hx]; [by compute_done|]).
    by apply elem_of_nil in Hx. }
  split; [exact Hstr|].
  pose proof (embedding_str_lists_components [3; -4; 12] Hstr) as (He & Hv & _).
  exact (conj He Hv).
Defined.



End Examples.

(** * Further properties of the handlers *)

Lemma filter_none {A} (P : A → Prop) `{∀ x, Decision (P x)} (l : list A) :
  (∀ x, x ∈ l → ¬ P x) → filter P l = [].
Proof.
  induction l as [|a l IH]; [done|]. intros Hno.
  rewrite filter_cons, decide_False by (apply Hno; left).
  apply IH. intros x Hx. apply Hno. by right.
Qed.

(** Where a key is unique, a filter that fixes the key keeps one row. *)
Lemma filter_unique_key {A B} (f : A → B) (P : A → Prop)
    `{∀ x, Decision (P x)} (l : list A) (d : A) :
  NoDup (f <$> l) → d ∈ l → P d → (∀ x, P x → f x = f d) →
  filter P l = [d].
Proof.
  induction l as [|a l IH]; intros Hnd Hd HP Hkey.
  { by apply elem_of_nil in Hd. }
  rewrite fmap_cons, NoDup_cons in Hnd. destruct Hnd as [Ha Hnd].
  rewrite filter_cons.
  apply elem_of_cons in Hd as [<-|Hd].
  - rewrite decide_True by done. f_equal.
    apply filter_none. intros x Hx HPx. apply Ha.
    rewrite <- (Hkey x HPx). by apply list_elem_of_fmap_2.
  - rewrite decide_False; [by apply IH|].
    intros HPa. apply Ha. rewrite (Hkey a HPa). by apply list_elem_of_fmap_2.
Qed.

Section RequestOutcomes.
Context `{Externals}.

Lemma select_by_pk_fresh w row :
  consistent w → Document.id row = documents_id_seq w + 1 →
  select_by_pk (documents_id_seq w + 1) (documents w ++ [row]) = [row].
Proof.
  intros Hw Hid. unfold select_by_pk. rewrite filter_app.
  rewrite filter_none.
  - simpl. rewrite filter_cons, decide_True by done. done.
  - intros d Hd Heq. pose proof (ids_from_sequence w Hw d Hd). lia.
Qed.

(** The runs of [create_document] in a consistent world, by what the
    database and the broker refuse. *)
Lemma create_document_cases data u env w r w' :
  consistent w →
  create_document data u env w = (r, w') →
  let pk := documents_id_seq w + 1 in
  let row :=
    Document.mk pk (DocumentCreate.title data) (DocumentCreate.content data)
      (User.id u) None (now env) in
  let insert :=
    InsertDocument (DocumentCreate.title data) (DocumentCreate.content data)
      (User.id u) in
  match execute_fault env insert, commit_fault env,
        execute_fault env (RefreshDocument pk), delay_fault env with
  | Some e, _, _, _ =>
      r = Raise e ∧ documents w' = documents w ∧
      celery_queue w' = celery_queue w ∧
      new_effects w w' = [Execute insert; Close]
  | None, Some e, _, _ =>
      r = Raise e ∧ documents w' = documents w ∧
      celery_queue w' = celery_queue w ∧
      new_effects w w' = [Execute insert; Commit; Close]
  | None, None, Some e, _ =>
      r = Raise e ∧ documents w' = documents w ++ [row] ∧
      celery_queue w' = celery_queue w ∧
      new_effects w w' =
        [Execute insert; Commit; Execute (RefreshDocument pk); Close]
  | None, None, None, Some e =>
      r = Raise e ∧ documents w' = documents w ++ [row] ∧
      celery_queue w' = celery_queue w ∧
      new_effects w w' =
        [Execute insert; Commit; Execute (RefreshDocument pk); Close]
  | None, None, None, None =>
      r = Ok (document_response row) ∧
      documents w' = documents w ++ [row] ∧
      celery_queue w' = celery_queue w ++ [(pk, DocumentCreate.content data)] ∧
      new_effects w w' =
        [Execute insert; Commit; Execute (RefreshDocument pk);
         Delay pk (DocumentCreate.content data);
         LogUserAction (User.id u) "DOCUMENT_CREATED"
           [("document_id", PyInt pk)];
         Close]
  end.
Proof.
  intros Hw. pose proof (no_open_transaction w Hw) as Ht.
  unfold create_document, get_db, try_finally, bind,
    db_flush_insert, db_commit, db_execute, log_user_action, ret, db_close.
  cbv zeta.
  destruct (execute_fault env (InsertDocument _ _ _)) as [e|].
  { intros ?; simplify_eq. simpl. split_and!; [done..|].
    unfold new_effects. simpl. rewrite <- !app_assoc.
    by rewrite drop_app_length. }
  destruct (commit_fault env) as [e|].
  { intros ?; simplify_eq. simpl. split_and!; [done..|].
    unfold new_effects. simpl. rewrite <- !app_assoc.
    by rewrite drop_app_length. }
  simpl (Document.id _). simpl (documents_id_seq (emit _ _)).
  destruct (execute_fault env (RefreshDocument _)) as [e|].
  { intros ?; simplify_eq. unfold session_rows. simpl. rewrite Ht. simpl.
    split_and!; [done..|].
    unfold new_effects. simpl. rewrite <- !app_assoc.
    by rewrite drop_app_length. }
  unfold session_rows. simpl. rewrite Ht. simpl.
  rewrite select_by_pk_fresh by done.
  destruct (delay_fault env) as [e|].
  { intros ?; simplify_eq. simpl. split_and!; [done..|].
    unfold new_effects. simpl. rewrite <- !app_assoc.
    by rewrite drop_app_length. }
  intros ?; simplify_eq. simpl. split_and!; [done..|].
  unfold new_effects. simpl. rewrite <- !app_assoc.
  by rewrite drop_app_length.
Qed.

Lemma not_elem_of_list {A} (x : A) (l : list A) :
  Forall (λ y, x ≠ y) l → x ∉ l.
Proof.
  intros Hall Hin. by apply (proj1 (Forall_forall _ _) Hall x Hin).
Qed.

(** X1.  [create_document] in a consistent world, with the row
    (sequence + 1, title, content, owner, no embedding, now).
    - When it returns, it returns that row's response, the row has been
      appended to the table, exactly the task (id, content) has been added
      to the queue, and the commit came before the enqueueing.
    - When it raises, nothing has been enqueued, and the table is either as
      before or has the row appended after a commit.
    - It raises what the database refused: at the INSERT or at the commit
      the table is unchanged; at the refresh the row stays stored.
    - When the broker refuses the task, the broker's error is raised and the
      row stays stored, without embedding and without a task in the queue.
    - When neither the database nor the broker refuses anything, it
      returns. *)
Theorem create_document_outcome data u env w r w' :
  consistent w →
  create_document data u env w = (r, w') →
  let pk := documents_id_seq w + 1 in
  let row :=
    Document.mk pk (DocumentCreate.title data) (DocumentCreate.content data)
      (User.id u) None (now env) in
  let insert :=
    InsertDocument (DocumentCreate.title data) (DocumentCreate.content data)
      (User.id u) in
  (∀ resp, r = Ok resp →
     resp = document_response row ∧
     documents w' = documents w ++ [row] ∧
     celery_queue w' = celery_queue w ++ [(pk, DocumentCreate.content data)] ∧
     ∃ before between after,
       new_effects w w' =
         before ++ [Commit] ++ between ++
         [Delay pk (DocumentCreate.content data)] ++ after) ∧
  (∀ e, r = Raise e →
     celery_queue w' = celery_queue w ∧
     (∀ i c, Delay i c ∉ new_effects w w') ∧
     (documents w' = documents w ∨
      (documents w' = documents w ++ [row] ∧ Commit ∈ new_effects w w'))) ∧
  (∀ e, execute_fault env insert = Some e →
     r = Raise e ∧ documents w' = documents w) ∧
  (∀ e, execute_fault env insert = None → commit_fault env = Some e →
     r = Raise e ∧ documents w' = documents w) ∧
  (∀ e, execute_fault env insert = None → commit_fault env = None →
     execute_fault env (RefreshDocument pk) = Some e →
     r = Raise e ∧ documents w' = documents w ++ [row] ∧
     celery_queue w' = celery_queue w) ∧
  (∀ e, execute_fault env insert = None → commit_fault env = None →
     execute_fault env (RefreshDocument pk) = None →
     delay_fault env = Some e →
     r = Raise e ∧ documents w' = documents w ++ [row] ∧
     celery_queue w' = celery_queue w) ∧
  (execute_fault env insert = None → commit_fault env = None →
   execute_fault env (RefreshDocument pk) = None →
   delay_fault env = None →
   r = Ok (document_response row)).
Proof.
  intros Hw Hrun.
  pose proof (create_document_cases data u env w r w' Hw Hrun) as Hc.
  cbv zeta in *.
  destruct (execute_fault env (InsertDocument _ _ _)) as [e1|].
  { destruct Hc as (-> & Hd & Hq & He). rewrite He.
    split_and!; try done.
    - intros e ?; simplify_eq. split_and!; [done| |by left].
      intros i c. apply not_elem_of_list. by repeat constructor.
    - intros e ?; by simplify_eq. }
  destruct (commit_fault env) as [e2|].
  { destruct Hc as (-> & Hd & Hq & He). rewrite He.
    split_and!; try done.
    - intros e ?; simplify_eq. split_and!; [done| |by left].
      intros i c. apply not_elem_of_list. by repeat constructor.
    - intros e _ ?; by simplify_eq. }
  destruct (execute_fault env (RefreshDocument _)) as [e3|].
  { destruct Hc as (-> & Hd & Hq & He). rewrite He.
    split_and!; try done.
    - intros e ?; simplify_eq. split_and!; [done| |right; split; [done|]].
      + intros i c. apply not_elem_of_list. by repeat constructor.
      + right. left.
    - intros e _ _ ?; by simplify_eq. }
  destruct (delay_fault env) as [e4|].
  { destruct Hc as (-> & Hd & Hq & He). rewrite He.
    split_and!; try done.
    - intros e ?; simplify_eq. split_and!; [done| |right; split; [done|]].
      + intros i c. apply not_elem_of_list. by repeat constructor.
      + right. left.
    - intros e _ _ _ ?; by simplify_eq. }
  destruct Hc as (-> & Hd & Hq & He). rewrite He.
  split_and!; try done.
  intros resp ?; simplify_eq. split_and!; [done..|].
  by eexists [_], [_], [_; _].
Qed.

(** X2.  [search_documents] raises only what the embedder, the database or
    the cast of the query text raised; when these three succeed it returns
    a response with one entry per selected row: building the response never
    fails, as no selected row has a NULL similarity. *)
Theorem search_documents_outcome req u env w :
  (∀ e w',
     search_documents req u env w = (Raise e, w') →
     (∃ w1, generate_embedding (DocumentSearchRequest.query req) env w
              = (Raise e, w1)) ∨
     (∃ emb w1,
        generate_embedding (DocumentSearchRequest.query req) env w
          = (Ok emb, w1) ∧
        (execute_fault env (SelectSimilar (embedding_str emb) (User.id u))
           = Some e ∨
         (execute_fault env (SelectSimilar (embedding_str emb) (User.id u))
            = None ∧
          vector_in (embedding_str emb) = Raise e)))) ∧
  (∀ emb w1 q,
     generate_embedding (DocumentSearchRequest.query req) env w = (Ok emb, w1) →
     execute_fault env (SelectSimilar (embedding_str emb) (User.id u)) = None →
     vector_in (embedding_str emb) = Ok q →
     ∃ results w',
       search_documents req u env w = (Ok results, w') ∧
       length results
         = length (select_similar_documents (session_rows w) q (User.id u))).
Proof.
  split.
  - intros e w'. rewrite search_documents_unfold.
    destruct (generate_embedding _ env w) as [[emb|e0] w1] eqn:Hg.
    + cbv zeta.
      destruct (execute_fault env _) as [e1|] eqn:Hx.
      { intros ?; simplify_eq. right. exists emb, w1. auto. }
      destruct (vector_in _) as [q|e1] eqn:Hq.
      * rewrite (session_rows_search_statement _ _ _ _ _ _ Hg).
        destruct (select_similar_results (session_rows w) q (User.id u))
          as (results & Hc & _).
        rewrite Hc. done.
      * intros ?; simplify_eq. right. exists emb, w1. auto.
    + intros ?; simplify_eq. left. eauto.
  - intros emb w1 q Hg Hx Hq. rewrite search_documents_unfold, Hg.
    cbv zeta. rewrite Hx, Hq.
    rewrite (session_rows_search_statement _ _ _ _ _ _ Hg).
    destruct (select_similar_results (session_rows w) q (User.id u))
      as (results & Hc & Hf).
    rewrite Hc. eexists _, _. split; [done|].
    symmetry. by eapply Forall2_length.
Qed.

Lemma execute_after_load (pre l : list Effect) stmt :
  pre = [] ∨ pre = [LoadModel "all-MiniLM-L6-v2"] →
  Execute stmt ∈ pre ++ l → Execute stmt ∈ l.
Proof.
  intros [-> | ->]; simpl; [done|].
  intros Hin. by apply elem_of_cons in Hin as [?|Hin].
Qed.

(** X3.  A search request writes nothing: whatever its outcome, the table,
    the id sequence, the queue, the result backend and the worker's model
    are as before; the only statement it may send is the similarity SELECT,
    and when it ends no transaction is open. *)
Theorem search_is_read_only body u env w :
  let w' := (post_documents_search body u (in_process Web env) w).2 in
  documents w' = documents w ∧
  documents_id_seq w' = documents_id_seq w ∧
  celery_queue w' = celery_queue w ∧
  celery_results w' = celery_results w ∧
  worker_model w' = worker_model w ∧
  (∀ stmt, Execute stmt ∈ new_effects w w' →
           ∃ text uid, stmt = SelectSimilar text uid) ∧
  transaction w' = None.
Proof.
  cbv zeta. unfold post_documents_search.
  destruct (validate_search_request body) as [req|e0].
  2:{ unfold get_db, try_finally, raise, db_close. simpl.
      split_and!; [done..| |done].
      intros stmt.
      erewrite new_effects_app by (simpl; reflexivity).
      intros Hin. apply elem_of_cons in Hin as [?|Hin]; [done|].
      by apply elem_of_nil in Hin. }
  rewrite search_documents_unfold.
  destruct (generate_embedding _ _ w) as [[emb|e] w1] eqn:Hg;
    pose proof (generate_embedding_frame _ _ _ _ _ Hg)
      as (Hd & _ & Hs & Hq & Hr & _);
    pose proof (generate_embedding_effects _ _ _ _ _ Hg) as (pre & He & Hpre);
    assert (worker_model w1 = worker_model w) as Hwm
      by (rewrite generate_embedding_unfold in Hg; simpl in Hg;
          destruct (web_model w); [by simplify_eq|];
          destruct (load_model env); by simplify_eq).
  - cbv zeta.
    destruct (execute_fault _ _); [|destruct (vector_in _)]; simpl;
      (split_and!; [done..| |done]);
      intros stmt;
      erewrite new_effects_app
        by (simpl; rewrite He, <- !app_assoc; reflexivity);
      intros Hin; apply (execute_after_load _ _ _ Hpre) in Hin; simpl in Hin;
      repeat (apply elem_of_cons in Hin as [Hin|Hin]; [simplify_eq; eauto|]);
      by apply elem_of_nil in Hin.
  - simpl. split_and!; [done..| |done].
    intros stmt.
    erewrite new_effects_app
      by (simpl; rewrite He, <- !app_assoc; reflexivity).
    intros Hin. apply (execute_after_load _ _ _ Hpre) in Hin. simpl in Hin.
    repeat (apply elem_of_cons in Hin as [Hin|Hin]; [simplify_eq|]).
    by apply elem_of_nil in Hin.
Qed.

End RequestOutcomes.

Global Instance created_at_desc_trans `{Externals} : Transitive created_at_desc.
Proof. intros a b c. unfold created_at_desc. lia. Qed.

Global Instance created_at_desc_total `{Externals} : Total created_at_desc.
Proof. intros a b. unfold created_at_desc. lia. Qed.

Section ReadingProperties.
Context `{Externals}.

(** In a consistent table the SELECT by id and owner finds the one row with
    that id and owner, or nothing. *)
Lemma select_document_cases document_id uid w :
  consistent w →
  (∃ d, d ∈ documents w ∧ Document.id d = document_id ∧
        Document.user_id d = uid ∧
        select_document document_id uid (documents w) = [d]) ∨
  ((∀ d, d ∈ documents w → Document.id d = document_id →
         Document.user_id d ≠ uid) ∧
   select_document document_id uid (documents w) = []).
Proof.
  intros Hw. unfold select_document.
  destruct (filter _ (documents w)) as [|d rest] eqn:Hsel.
  - right. split; [|done]. intros d Hd Hid Hu.
    assert (d ∈ filter (λ d, Document.id d = document_id ∧
                             Document.user_id d = uid) (documents w)) as Hin
      by by apply list_elem_of_filter.
    rewrite Hsel in Hin. by apply elem_of_nil in Hin.
  - left. exists d.
    assert (d ∈ d :: rest) as Hd by left. rewrite <- Hsel in Hd.
    apply list_elem_of_filter in Hd as [[Hid Hu] Hd].
    split_and!; [done..|]. rewrite <- Hsel.
    apply (filter_unique_key Document.id); [apply Hw|done|done|].
    intros x [Hx _]. congruence.
Qed.

(** X4.  [get_document] in a consistent world never changes the table and
    leaves no transaction open.  When the database answers, it returns the
    document with the asked id if the caller owns it, and raises the 404
    "Document not found" otherwise, be the document missing or another
    user's; a refused statement is raised as it is. *)
Theorem get_document_outcome document_id u env w r w' :
  consistent w →
  get_document document_id u env w = (r, w') →
  documents w' = documents w ∧ transaction w' = None ∧
  (∀ e, execute_fault env (SelectDocument document_id (User.id u)) = Some e →
        r = Raise e) ∧
  (execute_fault env (SelectDocument document_id (User.id u)) = None →
   (∃ d, d ∈ documents w ∧ Document.id d = document_id ∧
         Document.user_id d = User.id u ∧ r = Ok (document_response d)) ∨
   ((∀ d, d ∈ documents w → Document.id d = document_id →
          Document.user_id d ≠ User.id u) ∧
    r = Raise (HTTPException 404 "Document not found"))).
Proof.
  intros Hw. pose proof (no_open_transaction w Hw) as Ht.
  unfold get_document, get_db, try_finally, bind, db_execute,
    log_user_action, ret, raise, lift, db_close.
  cbv zeta.
  destruct (execute_fault env (SelectDocument _ _)) as [e|].
  { intros ?; simplify_eq. simpl. split_and!; [done..| |done].
    intros ? ?; by simplify_eq. }
  unfold session_rows. simpl. rewrite Ht. simpl.
  destruct (select_document_cases document_id (User.id u) w Hw)
    as [(d & Hd & Hid & Hu & ->)|[Hno ->]]; simpl;
    intros ?; simplify_eq; simpl; (split_and!; [done..|]); intros _.
  - left. by exists d.
  - by right.
Qed.

(** X5.  [delete_document] in a consistent world.  Whenever it raises, the
    table is as before.  When the database answers the SELECT and no row
    has the asked id with the caller as owner, it raises the 404 "Document
    not found": another user's document is not deleted.  When there is
    such a row and the database accepts the DELETE and the commit, it
    returns, and the table then holds exactly the rows with another id. *)
Theorem delete_document_outcome document_id u env w r w' :
  consistent w →
  delete_document document_id u env w = (r, w') →
  (∀ e, r = Raise e → documents w' = documents w) ∧
  (execute_fault env (SelectDocument document_id (User.id u)) = None →
   (∀ d, d ∈ documents w → Document.id d = document_id →
         Document.user_id d ≠ User.id u) →
   r = Raise (HTTPException 404 "Document not found")) ∧
  (∀ d, d ∈ documents w → Document.id d = document_id →
        Document.user_id d = User.id u →
        execute_fault env (SelectDocument document_id (User.id u)) = None →
        execute_fault env (DeleteDocument document_id) = None →
        commit_fault env = None →
        r = Ok () ∧
        (∀ d', d' ∈ documents w' ↔
               d' ∈ documents w ∧ Document.id d' ≠ document_id)) ∧
  transaction w' = None ∧ celery_queue w' = celery_queue w.
Proof.
  intros Hw. pose proof (no_open_transaction w Hw) as Ht.
  unfold delete_document, get_db, try_finally, bind, db_execute,
    db_commit, log_user_action, ret, raise, lift, db_close.
  cbv zeta.
  destruct (execute_fault env (SelectDocument _ _)) as [e|].
  { intros ?; simplify_eq. simpl. by split_and!. }
  unfold session_rows. simpl. rewrite Ht. simpl.
  destruct (select_document_cases document_id (User.id u) w Hw)
    as [(d & Hd & Hid & Hu & ->)|[Hno ->]]; simpl.
  - destruct (execute_fault env (DeleteDocument _)) as [e|].
    { intros ?; simplify_eq. simpl. split_and!; [done| |done..].
      intros _ Hall. by destruct (Hall d). }
    destruct (commit_fault env) as [e|].
    { intros ?; simplify_eq. simpl. split_and!; [done| |done..].
      intros _ Hall. by destruct (Hall d). }
    intros ?; simplify_eq. simpl. split_and!; [done| | |done..].
    + intros _ Hall. by destruct (Hall d).
    + intros d0 _ _ _ _ _ _. split; [done|].
      intros d'. unfold delete_where_id. rewrite list_elem_of_filter. tauto.
  - intros ?; simplify_eq. simpl. split_and!; [done..| |done|done].
    intros d Hd Hid Hu. by destruct (Hno d).
Qed.

(** X6.  The query of [list_documents] returns exactly the rows of the
    table that the caller owns, each as often as the table holds it, by
    descending creation time; documents without an embedding are listed,
    though no similarity search returns them, and whatever a similarity
    search of the same user keeps is listed. *)
Theorem list_query_owner_and_order (table : list Document) (uid : Z)
    (q : vector) :
  select_user_documents uid table
    ≡ₚ filter (λ d, Document.user_id d = uid) table ∧
  (∀ d, d ∈ select_user_documents uid table ↔
        d ∈ table ∧ Document.user_id d = uid) ∧
  StronglySorted (λ a b, Document.created_at b ≤ Document.created_at a)
    (select_user_documents uid table) ∧
  (∀ d, d ∈ select_similar_documents table q uid →
        d ∈ select_user_documents uid table) ∧
  (∀ d, d ∈ table → Document.user_id d = uid →
        Document.embedding d = None →
        d ∈ select_user_documents uid table ∧
        d ∉ select_similar_documents table q uid).
Proof.
  assert (∀ d, d ∈ select_user_documents uid table ↔
               d ∈ table ∧ Document.user_id d = uid) as Helem.
  { intros d. unfold select_user_documents.
    rewrite merge_sort_Permutation, list_elem_of_filter. tauto. }
  split_and!.
  - apply merge_sort_Permutation.
  - exact Helem.
  - apply (StronglySorted_merge_sort created_at_desc).
  - intros d Hd. apply select_similar_documents_elem in Hd as (Hd & Hu & _).
    by apply Helem.
  - intros d Hd Hu Hnone. split; [by apply Helem|].
    intros Hin. apply select_similar_documents_elem in Hin as (_ & _ & [e He]).
    congruence.
Qed.

End ReadingProperties.

(** * The system over time *)

Section Evolution.
Context `{Externals}.

Lemma same_document_refl (d : Document) : same_document d d.
Proof. by unfold same_document. Qed.

Lemma same_document_trans (a b c : Document) :
  same_document a b → same_document b c → same_document a c.
Proof.
  unfold same_document.
  intros (? & ? & ? & ? & ?) (? & ? & ? & ? & ?). split_and!; congruence.
Qed.

Lemma same_document_set_embedding v (d : Document) :
  same_document d (Document.set_embedding v d).
Proof. by unfold same_document. Qed.

(** What one event does to the rows: a row after the event is a row from
    before, with at most another embedding, or the new row of a creation,
    whose id is the next of the sequence; the sequence never goes back. *)
Lemma step_documents ev env w :
  consistent w →
  documents_id_seq w ≤ documents_id_seq (step ev env w) ∧
  ∀ d', d' ∈ documents (step ev env w) →
        (∃ d, d ∈ documents w ∧ same_document d d') ∨
        documents_id_seq w < Document.id d'.
Proof.
  intros Hw. pose proof (no_open_transaction w Hw) as Ht.
  destruct ev as [u data|u body|u document_id|n ack]; simpl.
  - destruct (create_document data u _ w) as [r w'] eqn:Hrun. simpl.
    apply create_document_world in Hrun as (_ & _ & Hcases); [|done].
    destruct Hcases as [(e & _ & Hd & _ & Hs)|(Hd & Hs & _)]; rewrite Hd.
    + split; [destruct Hs as [-> | ->]; lia|].
      intros d' Hd'. left. exists d'. split; [done|apply same_document_refl].
    + split; [lia|]. intros d' Hd'.
      apply elem_of_app in Hd' as [Hd'|Hd'].
      * left. exists d'. split; [done|apply same_document_refl].
      * right. apply list_elem_of_singleton in Hd'. subst d'. simpl. lia.
  - destruct (post_documents_search body u _ w) as [r w'] eqn:Hrun. simpl.
    apply post_documents_search_world in Hrun as (_ & Hd & Hs & _); [|done].
    rewrite Hd, Hs. split; [lia|].
    intros d' Hd'. left. exists d'. split; [done|apply same_document_refl].
  - destruct (delete_document document_id u _ w) as [r w'] eqn:Hrun. simpl.
    apply delete_document_world in Hrun as (_ & Hs & _ & _ & Hd); [|done].
    rewrite Hs. split; [lia|].
    intros d' Hd'. left. exists d'. split; [|apply same_document_refl].
    destruct Hd as [Hd|Hd]; rewrite Hd in Hd'; [done|].
    unfold delete_where_id in Hd'. by apply list_elem_of_filter in Hd' as [_ ?].
  - destruct (celery_queue w !! n) as [[i c]|] eqn:Hn.
    2:{ unfold worker_run. rewrite Hn. split; [lia|].
        intros d' Hd'. left. exists d'.
        split; [done|apply same_document_refl]. }
    destruct (worker_run_unfold n ack env w i c Hn) as (r & w1 & Hrun & ->).
    set (w0 := if ack then set_celery_queue (delete n (celery_queue w)) w
               else w) in Hrun.
    assert (transaction w0 = None ∧ documents w0 = documents w ∧
            documents_id_seq w0 = documents_id_seq w) as (Ht0 & Hd0 & Hs0).
    { subst w0. by destruct ack. }
    pose proof (task_run_frame _ _ _ _ _ _ Ht0 Hrun) as (_ & Hs1 & _).
    pose proof (task_run_documents _ _ _ _ _ _ Ht0 Hrun) as Hdocs.
    simpl. rewrite Hs1, Hs0. split; [lia|].
    intros d' Hd'. left.
    destruct Hdocs as [(e & _ & Hd1)|(emb & w2 & _ & _ & Hd1 & _)];
      rewrite Hd1, Hd0 in Hd'.
    + exists d'. split; [done|apply same_document_refl].
    + apply elem_of_update_embedding in Hd' as (d & Hd & Hcase).
      exists d. split; [done|].
      destruct Hcase as [[_ ->]|[_ ->]];
        [apply same_document_set_embedding|apply same_document_refl].
Qed.

Lemma run_documents evs w :
  consistent w →
  documents_id_seq w ≤ documents_id_seq (run evs w) ∧
  ∀ d', d' ∈ documents (run evs w) →
        (∃ d, d ∈ documents w ∧ same_document d d') ∨
        documents_id_seq w < Document.id d'.
Proof.
  revert w. induction evs as [|[ev env] evs IH]; intros w Hw; simpl.
  { split; [lia|]. intros d' Hd'. left. exists d'.
    split; [done|apply same_document_refl]. }
  destruct (step_documents ev env w Hw) as [Hs Hstep].
  destruct (IH _ (consistent_step ev env w Hw)) as [Hs' Hrun].
  split; [lia|]. intros d' Hd'.
  destruct (Hrun d' Hd') as [(d1 & Hd1 & Hsame1)|Hnew]; [|right; lia].
  destruct (Hstep d1 Hd1) as [(d & Hd & Hsame)|Hnew].
  - left. exists d. split; [done|]. by eapply same_document_trans.
  - right. destruct Hsame1 as (Hid & _). lia.
Qed.

(** X7.  Nothing but the embedding of a stored document ever changes: in
    every world reached from a consistent one, by any creations, searches,
    deletions and task runs, a document whose id was already given out stems
    from a document of the first world with the same id, title, content,
    owner and creation time. *)
Theorem documents_keep_their_fields evs w d' :
  consistent w →
  d' ∈ documents (run evs w) →
  Document.id d' ≤ documents_id_seq w →
  ∃ d, d ∈ documents w ∧
       Document.id d' = Document.id d ∧
       Document.title d' = Document.title d ∧
       Document.content d' = Document.content d ∧
       Document.user_id d' = Document.user_id d ∧
       Document.created_at d' = Document.created_at d.
Proof.
  intros Hw Hd' Hid.
  destruct (run_documents evs w Hw) as [_ Hrun].
  destruct (Hrun d' Hd') as [(d & Hd & Hsame)|Hnew]; [|lia].
  exists d. split; [done|]. exact Hsame.
Qed.

Lemma delete_document_ok document_id u env w w' :
  consistent w →
  delete_document document_id u env w = (Ok (), w') →
  (∃ d, d ∈ documents w ∧ Document.id d = document_id) ∧
  documents w' = delete_where_id document_id (documents w).
Proof.
  intros Hw. pose proof (no_open_transaction w Hw) as Ht.
  unfold delete_document, get_db, try_finally, bind, db_execute,
    db_commit, log_user_action, ret, raise, lift, db_close.
  cbv zeta.
  destruct (execute_fault env (SelectDocument _ _)) as [e|]; [done|].
  unfold session_rows. simpl. rewrite Ht. simpl.
  destruct (select_document_cases document_id (User.id u) w Hw)
    as [(d & Hd & Hid & Hu & ->)|[Hno ->]]; simpl; [|done].
  destruct (execute_fault env (DeleteDocument _)) as [e|]; [done|].
  destruct (commit_fault env) as [e|]; [done|].
  intros ?; simplify_eq. simpl. split; [by exists d|done].
Qed.

(** X8.  Deletion is final.  Once [delete_document] has returned, no later
    event brings back a row with the deleted id: not a run of the indexing
    task that was enqueued for it, not a redelivery, not a creation, as ids
    come from the sequence and are not given out twice. *)
Theorem deleted_stays_deleted document_id u env w w' evs :
  consistent w →
  delete_document document_id u env w = (Ok (), w') →
  ∀ d', d' ∈ documents (run evs w') → Document.id d' ≠ document_id.
Proof.
  intros Hw Hdel d' Hd' Hid.
  pose proof (consistent_delete u document_id env w Hw) as Hw'.
  rewrite Hdel in Hw'. simpl in Hw'.
  pose proof (delete_document_world _ _ _ _ _ _ (no_open_transaction w Hw) Hdel)
    as (_ & Hs & _).
  apply delete_document_ok in Hdel as [(d0 & Hd0 & Hid0) Hdocs]; [|done].
  pose proof (ids_from_sequence w Hw d0 Hd0) as Hle.
  destruct (run_documents evs w' Hw') as [_ Hrun].
  destruct (Hrun d' Hd') as [(d & Hd & Hsame)|Hnew]; [|lia].
  rewrite Hdocs in Hd. unfold delete_where_id in Hd.
  apply list_elem_of_filter in Hd as [Hne _].
  destruct Hsame as (Hsid & _). congruence.
Qed.

End Evolution.

Section Provenance.
Context `{Externals}.

(** X10.  Owners are isolated in every world the system can reach: the
    response of a search holds no id of a document that another user owns,
    also when that document has the same content and embedding as one of
    the caller's. *)
Theorem search_never_returns_foreign_document w d req u env results w' :
  reachable w →
  d ∈ documents w →
  Document.user_id d ≠ User.id u →
  search_documents req u env w = (Ok results, w') →
  Document.id d ∉ (DocumentSearchResult.id <$> results).
Proof.
  intros Hreach Hd Hforeign Hs Hin.
  destruct (reachable_consistent _ Hreach) as [Ht Hnd _ _ _ _].
  apply search_documents_response in Hs as (emb & w1 & q & _ & _ & Hf).
  apply list_elem_of_fmap in Hin as (r & Hid & Hr).
  apply list_elem_of_lookup in Hr as [i Hi].
  destruct (Forall2_lookup_r _ _ _ _ _ Hf Hi) as (d0 & Hd0 & e & He & ->).
  apply list_elem_of_lookup_2 in Hd0.
  apply select_similar_documents_elem in Hd0 as (Hd0 & Hu & _).
  unfold session_rows in Hd0. rewrite Ht in Hd0. simpl in Hd0, Hid.
  assert (d = d0) as <-; [|congruence].
  apply list_elem_of_lookup in Hd as [j Hj].
  apply list_elem_of_lookup in Hd0 as [j0 Hj0].
  assert (j = j0) as <-; [|congruence].
  eapply NoDup_lookup; [exact Hnd| |]; rewrite list_lookup_fmap.
  - by rewrite Hj.
  - rewrite Hj0. simpl. by rewrite Hid.
Qed.

(** X11.  A run of the indexing task inserts no row, deletes no row and
    touches no other document: row by row, the table after the run is the
    table before it, but that rows with the task's id may carry a new
    embedding; the queue, the result backend and the id sequence are not
    written by the task itself. *)
Theorem task_touches_only_its_embedding document_id content env w r w' :
  transaction w = None →
  generate_document_embedding document_id content env w = (r, w') →
  Forall2
    (λ d d', d' = d ∨
             (Document.id d = document_id ∧
              ∃ e, d' = Document.set_embedding (Some e) d))
    (documents w) (documents w') ∧
  documents_id_seq w' = documents_id_seq w ∧
  celery_queue w' = celery_queue w ∧
  celery_results w' = celery_results w.
Proof.
  intros Ht Hrun.
  pose proof (task_run_frame _ _ _ _ _ _ Ht Hrun) as (_ & Hs & Hq & Hr).
  split_and!; [|done..].
  pose proof (task_run_documents _ _ _ _ _ _ Ht Hrun)
    as [(e & _ & ->)|(emb & w1 & _ & _ & -> & _)].
  - apply Forall_Forall2_diag, Forall_forall. intros d _. by left.
  - unfold update_embedding. apply Forall2_fmap_r, Forall_Forall2_diag.
    apply Forall_forall. intros d _. unfold compose.
    destruct (decide (Document.id d = document_id)) as [Hid|Hid].
    + right. split; [done|]. by exists emb.
    + by left.
Qed.

End Provenance.

(** * The model cache *)

Section ModelCache.
Context `{Externals}.

(** A world keeps the models of another when every cached model of the
    first is still the cached model of the second. *)
Lemma generate_embedding_keeps_models text env w r w1 p model :
  generate_embedding text env w = (r, w1) →
  model_cache p w = Some model → model_cache p w1 = Some model.
Proof.
  rewrite generate_embedding_unfold.
  destruct (model_cache (process env) w) as [m|] eqn:Hm.
  { by intros ?; simplify_eq. }
  destruct (load_model env) as [m|e]; intros ?; simplify_eq;
    destruct p, (process env); simpl in *; congruence.
Qed.

Lemma step_keeps_models ev env w p model :
  model_cache p w = Some model → model_cache p (step ev env w) = Some model.
Proof.
  intros Hm. destruct ev as [u data|u body|u document_id|n ack]; simpl.
  - unfold create_document, get_db, try_finally, bind,
      db_flush_insert, db_commit, db_execute, log_user_action, ret, db_close.
    cbv zeta.
    destruct (execute_fault _ (InsertDocument _ _ _)); [by destruct p|].
    destruct (commit_fault _); [by destruct p|].
    destruct (execute_fault _ (RefreshDocument _)); [by destruct p|].
    destruct (select_by_pk _ _); [by destruct p|].
    destruct (delay_fault _); by destruct p.
  - unfold post_documents_search, bind, lift.
    destruct (validate_search_request body) as [req|e]; [|done].
    rewrite search_documents_unfold.
    destruct (generate_embedding _ _ w) as [[emb|e] w1] eqn:Hg;
      pose proof (generate_embedding_keeps_models _ _ _ _ _ _ _ Hg Hm) as Hm1.
    + cbv zeta. destruct (execute_fault _ _); [|destruct (vector_in _)];
        by destruct p.
    + by destruct p.
  - unfold delete_document, get_db, try_finally, bind, db_execute,
      db_commit, log_user_action, ret, raise, lift, db_close.
    cbv zeta.
    destruct (execute_fault _ (SelectDocument _ _)); [by destruct p|].
    destruct (scalar_one_or_none _) as [[d|]|e]; try by destruct p.
    destruct (execute_fault _ (DeleteDocument _)); [by destruct p|].
    destruct (commit_fault _); by destruct p.
  - unfold worker_run.
    destruct (celery_queue w !! n) as [[i c]|]; [|done].
    set (w0 := if ack then _ else w).
    assert (model_cache p w0 = Some model) as Hm0
      by (subst w0; destruct ack, p; done).
    rewrite generate_document_embedding_unfold.
    destruct (generate_embedding _ _ w0) as [[emb|e] w1] eqn:Hg;
      pose proof (generate_embedding_keeps_models _ _ _ _ _ _ _ Hg Hm0) as Hm1.
    + cbv zeta. destruct (execute_fault _ _); [|destruct (commit_fault _)];
        by destruct p.
    + by destruct p.
Qed.

(** X12.  The model is loaded once per process.  A cached model is never
    replaced or dropped, whatever requests and task runs follow; with a
    cached model [generate_embedding] encodes without touching the world,
    so without loading; and a load that raised is not cached: the next call
    tries again and, if the model then loads, returns and caches it. *)
Theorem model_loaded_once_per_process :
  (∀ evs w p model,
     model_cache p w = Some model → model_cache p (run evs w) = Some model) ∧
  (∀ text env w model,
     model_cache (process env) w = Some model →
     generate_embedding text env w = (encode model text, w)) ∧
  (∀ text env w e,
     model_cache (process env) w = None → load_model env = Raise e →
     ∃ w1,
       generate_embedding text env w = (Raise e, w1) ∧
       model_cache (process env) w1 = None ∧
       ∀ env2 model v,
         process env2 = process env → load_model env2 = Ok model →
         encode model text = Ok v →
         ∃ w2, generate_embedding text env2 w1 = (Ok v, w2) ∧
               model_cache (process env) w2 = Some model).
Proof.
  split_and!.
  - induction evs as [|[ev env] evs IH]; intros w p model Hm; simpl; [done|].
    by apply IH, step_keeps_models.
  - intros. by apply generate_embedding_cached.
  - intros text env w e Hnone Hload.
    exists (emit (LoadModel "all-MiniLM-L6-v2") w).
    assert (model_cache (process env)
              (emit (LoadModel "all-MiniLM-L6-v2") w) = None) as Hnone1
      by (by destruct (process env)).
    split_and!; [|done|].
    + by rewrite generate_embedding_unfold, Hnone, Hload.
    + intros env2 model v Hp Hload2 Henc. eexists. split.
      * rewrite generate_embedding_unfold, Hp, Hnone1, Hload2, Henc. done.
      * by destruct (process env).
Qed.

End ModelCache.

(** ** Where the embeddings come from *)

Section EmbeddingProvenance.
Context `{Externals}.








End EmbeddingProvenance.

(** * The text of a vector, and reading a document back *)

Section MoreRoundTrips.
Context `{Externals}.

Lemma vector_literal_elements_embedding_str (q : vector) :
  (∀ x, x ∈ q → float_str x ≠ "" ∧ ¬ has_char "," (float_str x)) →
  vector_literal_elements (embedding_str q) = Some (float_str <$> q).
Proof.
  intros Hstr. unfold embedding_str, vector_literal_elements.
  change ("[" +:+ ?s) with (String "["%char s). cbv iota.
  rewrite unsnoc_snoc.
  change (Ascii.eqb "[" "[" && Ascii.eqb "]" "]") with true. cbv iota.
  destruct q as [|x q']; [done|].
  destruct (String.concat "," (float_str <$> x :: q')) as [|c inner] eqn:Hc.
  - exfalso. destruct (Hstr x) as [Hne _]; [by left|].
    rewrite fmap_cons in Hc. simpl in Hc.
    destruct (float_str <$> q'); [done|].
    by destruct (float_str x).
  - rewrite <- Hc. f_equal. apply split_on_concat; [done|].
    apply Forall_fmap, Forall_forall. intros y Hy. by apply Hstr.
Qed.

Lemma fmap_inj_on {A B} (f : A → B) (l1 l2 : list A) :
  (∀ x y, x ∈ l1 → y ∈ l2 → f x = f y → x = y) →
  f <$> l1 = f <$> l2 → l1 = l2.
Proof.
  revert l2. induction l1 as [|x l1 IH]; intros [|y l2] Hinj Heq; try done.
  rewrite !fmap_cons in Heq. injection Heq as Hxy Heq.
  f_equal.
  - apply Hinj; [by left|by left|done].
  - apply IH; [|done]. intros a b Ha Hb. apply Hinj; by right.
Qed.

(** X13.  The text of the query vector loses nothing: two vectors with
    the same text are the same vector, provided [str] of their components
    is never empty, has no comma, and tells the components apart. *)
Theorem embedding_str_injective (q1 q2 : vector) :
  (∀ x, x ∈ q1 ++ q2 → float_str x ≠ "" ∧ ¬ has_char "," (float_str x)) →
  (∀ x y, x ∈ q1 → y ∈ q2 → float_str x = float_str y → x = y) →
  embedding_str q1 = embedding_str q2 →
  q1 = q2.
Proof.
  intros Hstr Hinj Heq.
  apply (fmap_inj_on float_str); [done|].
  assert (Some (float_str <$> q1) = Some (float_str <$> q2)) as Hsome.
  { rewrite <- !vector_literal_elements_embedding_str.
    - by rewrite Heq.
    - intros x Hx. apply Hstr, elem_of_app. by right.
    - intros x Hx. apply Hstr, elem_of_app. by left. }
  by injection Hsome.
Qed.

Lemma create_document_ok data u env w resp w' :
  consistent w →
  create_document data u env w = (Ok resp, w') →
  let row :=
    Document.mk (documents_id_seq w + 1) (DocumentCreate.title data)
      (DocumentCreate.content data) (User.id u) None (now env) in
  documents w' = documents w ++ [row] ∧ resp = document_response row.
Proof.
  intros Hw. pose proof (no_open_transaction w Hw) as Ht.
  unfold create_document, get_db, try_finally, bind,
    db_flush_insert, db_commit, db_execute, log_user_action, ret, db_close.
  cbv zeta.
  destruct (execute_fault env (InsertDocument _ _ _)) as [e|]; [done|].
  destruct (commit_fault env) as [e|]; [done|].
  simpl (Document.id _). simpl (documents_id_seq (emit _ _)).
  destruct (execute_fault env (RefreshDocument _)) as [e|]; [done|].
  unfold session_rows. simpl. rewrite Ht. simpl.
  rewrite select_by_pk_fresh by done.
  destruct (delay_fault env) as [e|]; [done|].
  intros ?; simplify_eq. by simpl.
Qed.

Lemma get_document_answer document_id u env w :
  transaction w = None →
  execute_fault env (SelectDocument document_id (User.id u)) = None →
  (get_document document_id u env w).1 =
  match select_document document_id (User.id u) (documents w) with
  | [] => Raise (HTTPException 404 "Document not found")
  | [d] => Ok (document_response d)
  | _ =>
      Raise (DatabaseError
               "Multiple rows were found when one or none was required")
  end.
Proof.
  intros Ht Hx.
  unfold get_document, get_db, try_finally, bind, db_execute,
    log_user_action, ret, raise, lift, db_close.
  cbv zeta. rewrite Hx.
  unfold session_rows. simpl. rewrite Ht. simpl.
  destruct (select_document _ _ _) as [|d [|d2 rest]]; done.
Qed.

(** X14.  What [create_document] returned can be read back: in a
    consistent world, after a creation that returned, [get_document] with
    the returned id gives the creator the very response of the creation,
    and gives any other user the 404 "Document not found". *)
Theorem created_document_read_back data u env w resp w' :
  consistent w →
  create_document data u env w = (Ok resp, w') →
  (∀ env2,
     execute_fault env2
       (SelectDocument (DocumentResponse.id resp) (User.id u)) = None →
     (get_document (DocumentResponse.id resp) u env2 w').1 = Ok resp) ∧
  (∀ other env2,
     User.id other ≠ User.id u →
     execute_fault env2
       (SelectDocument (DocumentResponse.id resp) (User.id other)) = None →
     (get_document (DocumentResponse.id resp) other env2 w').1
       = Raise (HTTPException 404 "Document not found")).
Proof.
  intros Hw Hrun.
  pose proof (consistent_create u data env w Hw) as Hw'.
  rewrite Hrun in Hw'. simpl in Hw'.
  pose proof (no_open_transaction w' Hw') as Ht'.
  apply create_document_ok in Hrun as [Hdocs ->]; [|done].
  cbv zeta in Hdocs. simpl (DocumentResponse.id _).
  set (pk := documents_id_seq w + 1) in *.
  set (row := Document.mk _ _ _ _ _ _) in Hdocs |- *.
  assert (row ∈ documents w') as Hrow.
  { rewrite Hdocs. apply elem_of_app. right. by apply list_elem_of_singleton. }
  assert (∀ d, d ∈ documents w' → Document.id d = pk → d = row) as Huniq.
  { intros d Hd Hid.
    apply list_elem_of_lookup in Hd as [i Hi].
    apply list_elem_of_lookup in Hrow as [j Hj].
    assert (i = j) as <-; [|congruence].
    eapply NoDup_lookup; [exact (ids_unique w' Hw')| |];
      rewrite list_lookup_fmap.
    - by rewrite Hi.
    - rewrite Hj. simpl. by rewrite Hid. }
  split.
  - intros env2 Hx. rewrite get_document_answer by done.
    destruct (select_document_cases pk (User.id u) w' Hw')
      as [(d & Hd & Hid & Hu & ->)|[Hno ->]].
    + by rewrite (Huniq d Hd Hid).
    + by destruct (Hno row Hrow).
  - intros other env2 Hother Hx. rewrite get_document_answer by done.
    destruct (select_document_cases pk (User.id other) w' Hw')
      as [(d & Hd & Hid & Hu & ->)|[Hno ->]]; [|done].
    rewrite (Huniq d Hd Hid) in Hu. simpl in Hu. congruence.
Qed.

End MoreRoundTrips.

Section Distinct.
Context `{Externals}.

Lemma NoDup_fmap_take {A B} (f : A → B) (n : nat) (l : list A) :
  NoDup (f <$> l) → NoDup (f <$> take n l).
Proof.
  intros Hnd. rewrite <- (take_drop n l), fmap_app in Hnd.
  by apply NoDup_app in Hnd as (? & _ & _).
Qed.

Lemma select_similar_documents_ids_distinct table q uid :
  NoDup (Document.id <$> table) →
  NoDup (Document.id <$> select_similar_documents table q uid).
Proof.
  intros Hnd. unfold select_similar_documents.
  apply NoDup_fmap_take.
  rewrite merge_sort_Permutation. by apply NoDup_fmap_filter.
Qed.

(** X15.  In every world the system can reach, the response of a search
    names no document twice. *)
Theorem search_results_distinct w req u env results w' :
  reachable w →
  search_documents req u env w = (Ok results, w') →
  NoDup (DocumentSearchResult.id <$> results).
Proof.
  intros Hreach Hs.
  destruct (reachable_consistent _ Hreach) as [Ht Hnd _ _ _ _].
  apply search_documents_response in Hs as (emb & w1 & q & _ & _ & Hf).
  assert (DocumentSearchResult.id <$> results
          = Document.id <$>
              select_similar_documents (session_rows w) q (User.id u)) as ->.
  { clear -Hf. induction Hf as [|d r l l' (e & _ & ->) _ IH]; [done|].
    rewrite !fmap_cons. by rewrite IH. }
  apply select_similar_documents_ids_distinct.
  unfold session_rows. by rewrite Ht.
Qed.

End Distinct.

Lemma run_snoc `{Externals} evs ev env w :
  run (evs ++ [(ev, env)]) w = step ev env (run evs w).
Proof. revert w. induction evs as [|[ev' env'] evs IH]; intros w; simpl; auto. Qed.

Lemma reachable_step `{Externals} ev env w :
  reachable w → reachable (step ev env w).
Proof.
  intros [evs <-]. exists (evs ++ [(ev, env)]). apply run_snoc.
Qed.

(** * The further properties on the small instance *)

Section MoreExamples.
#[local] Existing Instance Demo.externals.

Lemma initial_reachable : reachable initial_world.
Proof. by exists []. Qed.

Lemma created_reachable : reachable Demo.created.
Proof.
  change Demo.created
    with (step (PostDocuments Demo.alice Demo.aspirin) Demo.env initial_world).
  apply reachable_step, initial_reachable.
Qed.


Lemma both_reachable : reachable Cases.both.
Proof.
  change Cases.both
    with (step (WorkerRun 0 true) Demo.env
            (step (WorkerRun 0 true) Demo.env
               (step (PostDocuments Demo.bob Demo.aspirin) Demo.env
                  Demo.created))).
  do 3 apply reachable_step. apply created_reachable.
Qed.

Example both_documents :
  documents Cases.both = [Cases.aspirin_indexed; Cases.bobs_row].
Proof. vm_compute. reflexivity. Qed.

Example indexed_documents : documents Demo.indexed = [Cases.aspirin_indexed].
Proof. vm_compute. reflexivity. Qed.

Example created_documents : documents Demo.created = [Cases.aspirin_row].
Proof. vm_compute. reflexivity. Qed.

(** X1 on the scenario: the first creation in the empty world. *)
Lemma create_document_outcome_witness :
  consistent initial_world ∧
  (create_document Demo.aspirin Demo.alice Cases.web_env initial_world).1
    = Ok (document_response Cases.aspirin_row) ∧
  documents Demo.created = [] ++ [Cases.aspirin_row] ∧
  celery_queue Demo.created
    = [] ++ [(1, "Standard adult aspirin dose is 81-325mg daily")].
Proof.
  split; [exact consistent_initial|].
  pose proof (create_document_outcome Demo.aspirin Demo.alice Cases.web_env
                initial_world _ _ consistent_initial
                (surjective_pairing _)) as (Hok & _).
  assert ((create_document Demo.aspirin Demo.alice Cases.web_env
             initial_world).1
          = Ok (document_response Cases.aspirin_row)) as Hr
    by (vm_compute; reflexivity).
  destruct (Hok _ Hr) as (_ & Hd & Hq & _).
  exact (conj Hr (conj Hd Hq)).
Defined.

(** X4 on the scenario: Alice reads her document, Bob does not. *)
Lemma get_document_outcome_witness :
  consistent Demo.created ∧
  documents (get_document 1 Demo.bob Demo.env Demo.created).2
    = documents Demo.created ∧
  transaction (get_document 1 Demo.bob Demo.env Demo.created).2 = None.
Proof.
  pose proof (reachable_consistent _ created_reachable) as Hw.
  split; [exact Hw|].
  pose proof (get_document_outcome 1 Demo.bob Demo.env Demo.created _ _ Hw
                (surjective_pairing _)) as (Hd & Ht & _).
  exact (conj Hd Ht).
Defined.

(** X5 on the scenario: Alice deletes her document. *)
Lemma delete_document_outcome_witness :
  consistent Demo.created ∧
  Cases.aspirin_row ∈ documents Demo.created ∧
  (delete_document 1 Demo.alice Cases.web_env Demo.created).1 = Ok () ∧
  (∀ d', d' ∈ documents Cases.deleted ↔
         d' ∈ documents Demo.created ∧ Document.id d' ≠ 1).
Proof.
  pose proof (reachable_consistent _ created_reachable) as Hw.
  assert (Cases.aspirin_row ∈ documents Demo.created) as Hrow
    by (rewrite created_documents; left).
  split_and!; [exact Hw|exact Hrow|..];
    pose proof (delete_document_outcome 1 Demo.alice Cases.web_env
                  Demo.created _ _ Hw (surjective_pairing _))
      as (_ & _ & Hok & _);
    destruct (Hok Cases.aspirin_row Hrow eq_refl eq_refl eq_refl eq_refl
                eq_refl) as [Hr Hd]; [exact Hr|exact Hd].
Defined.

(** X7 on the scenario: indexing has changed the embedding only. *)
Lemma documents_keep_their_fields_witness :
  consistent Demo.created ∧
  Cases.aspirin_indexed
    ∈ documents (run [(WorkerRun 0 true, Demo.env)] Demo.created) ∧
  Document.id Cases.aspirin_indexed ≤ documents_id_seq Demo.created ∧
  ∃ d, d ∈ documents Demo.created ∧
       Document.id Cases.aspirin_indexed = Document.id d ∧
       Document.title Cases.aspirin_indexed = Document.title d ∧
       Document.content Cases.aspirin_indexed = Document.content d ∧
       Document.user_id Cases.aspirin_indexed = Document.user_id d ∧
       Document.created_at Cases.aspirin_indexed = Document.created_at d.
Proof.
  pose proof (reachable_consistent _ created_reachable) as Hw.
  assert (Cases.aspirin_indexed
            ∈ documents (run [(WorkerRun 0 true, Demo.env)] Demo.created))
    as Hin.
  { change (run [(WorkerRun 0 true, Demo.env)] Demo.created)
      with Demo.indexed.
    rewrite indexed_documents. left. }
  assert (Document.id Cases.aspirin_indexed ≤ documents_id_seq Demo.created)
    as Hle by (vm_compute; discriminate).
  split_and!; [exact Hw|exact Hin|exact Hle|].
  exact (documents_keep_their_fields _ _ _ Hw Hin Hle).
Defined.

(** X8 on the scenario: Alice deletes her document, then the worker runs
    the task enqueued for it. *)
Lemma deleted_stays_deleted_witness :
  consistent Demo.created ∧
  delete_document 1 Demo.alice Cases.web_env Demo.created
    = (Ok (), Cases.deleted) ∧
  (∀ d', d' ∈ documents (run [(WorkerRun 0 true, Demo.env)] Cases.deleted) →
         Document.id d' ≠ 1).
Proof.
  pose proof (reachable_consistent _ created_reachable) as Hw.
  assert (delete_document 1 Demo.alice Cases.web_env Demo.created
          = (Ok (), Cases.deleted)) as Hdel.
  { apply injective_projections; [vm_compute; reflexivity|reflexivity]. }
  split_and!; [exact Hw|exact Hdel|].
  exact (deleted_stays_deleted 1 Demo.alice Cases.web_env Demo.created
           Cases.deleted [(WorkerRun 0 true, Demo.env)] Hw Hdel).
Defined.


(** X10 and X15 on two users with the same text, both indexed: Alice's
    search returns her document, not Bob's, and no id twice. *)
Lemma search_never_returns_foreign_document_witness :
  reachable Cases.both ∧
  Cases.bobs_row ∈ documents Cases.both ∧
  Document.user_id Cases.bobs_row ≠ User.id Demo.alice ∧
  Demo.response_ids
    (search_documents Demo.question Demo.alice Demo.env Cases.both) = Ok [1] ∧
  Document.id Cases.bobs_row
    ∉ (DocumentSearchResult.id <$>
         match (search_documents Demo.question Demo.alice Demo.env
                  Cases.both).1 with
         | Ok results => results
         | Raise _ => []
         end).
Proof.
  assert (Cases.bobs_row ∈ documents Cases.both) as Hin
    by (rewrite both_documents; right; left).
  assert (Document.user_id Cases.bobs_row ≠ User.id Demo.alice) as Hne
    by (vm_compute; discriminate).
  split_and!; [exact both_reachable|exact Hin|exact Hne
              |vm_compute; reflexivity|].
  destruct (search_documents Demo.question Demo.alice Demo.env Cases.both)
    as [[results|e] w'] eqn:Hs; simpl.
  - exact (search_never_returns_foreign_document Cases.both Cases.bobs_row
             Demo.question Demo.alice Demo.env results w' both_reachable
             Hin Hne Hs).
  - intros Hnil. by apply elem_of_nil in Hnil.
Defined.

Lemma search_results_distinct_witness :
  reachable Cases.both ∧
  NoDup (DocumentSearchResult.id <$>
           match (search_documents Demo.question Demo.alice Demo.env
                    Cases.both).1 with
           | Ok results => results
           | Raise _ => []
           end).
Proof.
  split; [exact both_reachable|].
  destruct (search_documents Demo.question Demo.alice Demo.env Cases.both)
    as [[results|e] w'] eqn:Hs; simpl.
  - exact (search_results_distinct Cases.both Demo.question Demo.alice
             Demo.env results w' both_reachable Hs).
  - constructor.
Defined.

(** X11 on the small table: the task for document 4, which is not indexed. *)
Lemma task_touches_only_its_embedding_witness :
  transaction Demo.world = None ∧
  Forall2
    (λ d d', d' = d ∨
             (Document.id d = 4 ∧
              ∃ e, d' = Document.set_embedding (Some e) d))
    (documents Demo.world)
    (documents
       (generate_document_embedding 4 "dd" Demo.worker_env Demo.world).2) ∧
  celery_queue
    (generate_document_embedding 4 "dd" Demo.worker_env Demo.world).2
    = celery_queue Demo.world.
Proof.
  split; [reflexivity|].
  pose proof (task_touches_only_its_embedding 4 "dd" Demo.worker_env
                Demo.world _ _ eq_refl (surjective_pairing _))
    as (Hf & _ & Hq & _).
  exact (conj Hf Hq).
Defined.

(** X13 on the vector (3, -4, 12). *)
Lemma embedding_str_injective_witness :
  (∀ x : Z, x ∈ [3; -4; 12] ++ [3; -4; 12] →
     float_str x ≠ "" ∧ ¬ has_char "," (float_str x)) ∧
  (∀ x y : Z, x ∈ [3; -4; 12] → y ∈ [3; -4; 12] →
     float_str x = float_str y → x = y) ∧
  embedding_str [3; -4; 12] = embedding_str [3; -4; 12] ∧
  ([3; -4; 12] : list Z) = [3; -4; 12].
Proof.
  assert (∀ x : Z, x ∈ [3; -4; 12] ++ [3; -4; 12] →
            float_str x ≠ "" ∧ ¬ has_char "," (float_str x)) as Hstr.
  { intros x Hx. simpl in Hx.
    repeat (apply elem_of_cons in Hx as [->|Hx]; [by compute_done|]).
    by apply elem_of_nil in Hx. }
  assert (∀ x y : Z, x ∈ [3; -4; 12] → y ∈ [3; -4; 12] →
            float_str x = float_str y → x = y) as Hinj.
  { intros x y Hx Hy.
    repeat (apply elem_of_cons in Hx as [->|Hx];
            [repeat (apply elem_of_cons in Hy as [->|Hy];
                     [vm_compute; congruence|]);
             by apply elem_of_nil in Hy|]).
    by apply elem_of_nil in Hx. }
  split_and!; [exact Hstr|exact Hinj|reflexivity|].
  exact (embedding_str_injective [3; -4; 12] [3; -4; 12] Hstr Hinj eq_refl).
Defined.

(** X14 on the scenario. *)
Lemma created_document_read_back_witness :
  consistent initial_world ∧
  create_document Demo.aspirin Demo.alice Cases.web_env initial_world
    = (Ok (document_response Cases.aspirin_row), Demo.created) ∧
  (get_document 1 Demo.alice Demo.env Demo.created).1
    = Ok (document_response Cases.aspirin_row) ∧
  (get_document 1 Demo.bob Demo.env Demo.created).1
    = Raise (HTTPException 404 "Document not found").
Proof.
  assert (create_document Demo.aspirin Demo.alice Cases.web_env initial_world
          = (Ok (document_response Cases.aspirin_row), Demo.created)) as Hrun.
  { apply injective_projections; [vm_compute; reflexivity|].
    change Demo.created
      with (step (PostDocuments Demo.alice Demo.aspirin) Demo.env
              initial_world).
    reflexivity. }
  split_and!; [exact consistent_initial|exact Hrun|..];
    pose proof (created_document_read_back Demo.aspirin Demo.alice
                  Cases.web_env initial_world _ _ consistent_initial Hrun)
      as [Hown Hother].
  - exact (Hown Demo.env eq_refl).
  - refine (Hother Demo.bob Demo.env _ eq_refl). vm_compute. discriminate.
Defined.

End MoreExamples.
